(** * GitLab MCP server: project-identity resolution and pipeline aggregation

    A shallow embedding of [bin/gitlab-mcp-server.js] (class
    [GitLabMCPServer]), in the order of the source:

    - [findGitRepository], on models of Node's POSIX [path.dirname] and
      [path.join] and a snapshot of [existsSync];
    - [isGitLabRepository] and [parseGitLabUrl], on strings; the WHATWG
      [URL] constructor is a parameter, [encodeURIComponent] is modelled;
    - the seven asynchronous operations, written in a monad [M] of
      computations that log their effects (backend requests, directories
      and files written) and either throw or return.  What the
      environment answers (file system, [git remote], token, replies of
      the backend, failures of writes) is one [World].

    Strings are byte strings (UTF-8); every delimiter the code looks at is
    ASCII, so the byte view and JavaScript's UTF-16 view split, strip and
    compare the same way.  JSON numbers are modelled as integers.  A
    thrown error is its [message], the only part the code reads.

    The second half states and proves what the specification says about
    this code. *)

From Stdlib Require Import String Ascii List Bool ZArith Arith Lia.
From Stdlib Require Import DecimalString.
Import ListNotations.

Open Scope list_scope.
Open Scope string_scope.

(* ===================================================================== *)
(** * JavaScript string primitives used by the server                     *)
(* ===================================================================== *)

Module JsString.

(** [s.startsWith(p)] *)
Fixpoint startsWith (s p : string) {struct p} : bool :=
  match p with
  | EmptyString => true
  | String a p' =>
      match s with
      | EmptyString => false
      | String b s' => Ascii.eqb a b && startsWith s' p'
      end
  end.

(** The remainder of [s] after the literal prefix [p], if [p] is one. *)
Fixpoint drop_prefix (p s : string) {struct p} : option string :=
  match p with
  | EmptyString => Some s
  | String a p' =>
      match s with
      | EmptyString => None
      | String b s' => if Ascii.eqb a b then drop_prefix p' s' else None
      end
  end.

(** [s.endsWith(suf)] *)
Fixpoint endsWith (s suf : string) : bool :=
  String.eqb s suf ||
  match s with
  | EmptyString => false
  | String _ r => endsWith r suf
  end.

(** [s.replace(/\.git$/, '')]: without the [m] flag [$] is the end of
    the input, so at most the final four characters are removed. *)
Fixpoint strip_dot_git (s : string) : string :=
  if String.eqb s ".git" then EmptyString
  else match s with
       | EmptyString => EmptyString
       | String c r => String c (strip_dot_git r)
       end.

(** [s.split(sep)] for a one-character separator. *)
Fixpoint split (sep : ascii) (s : string) : list string :=
  match s with
  | EmptyString => [EmptyString]
  | String c r =>
      if Ascii.eqb c sep then EmptyString :: split sep r
      else match split sep r with
           | h :: t => String c h :: t
           | [] => [String c EmptyString]
           end
  end.

(** [parts.join(sep)] *)
Fixpoint join (sep : string) (parts : list string) : string :=
  match parts with
  | [] => EmptyString
  | [p] => p
  | p :: rest => p ++ sep ++ join sep rest
  end.

(** Longest prefix of [s] whose characters satisfy [f], and the rest. *)
Fixpoint span (f : ascii -> bool) (s : string) : string * string :=
  match s with
  | EmptyString => (EmptyString, EmptyString)
  | String c r =>
      if f c then let (h, t) := span f r in (String c h, t)
      else (EmptyString, s)
  end.

(** [s.includes(sub)] *)
Fixpoint includes (s sub : string) : bool :=
  startsWith s sub ||
  match s with
  | EmptyString => false
  | String _ r => includes r sub
  end.

Definition all_chars (f : ascii -> bool) (s : string) : bool :=
  forallb f (list_ascii_of_string s).

Definition nonempty (s : string) : bool :=
  match s with EmptyString => false | String _ _ => true end.

Definition code (c : ascii) : nat := nat_of_ascii c.

Definition in_range (lo hi : nat) (c : ascii) : bool :=
  Nat.leb lo (code c) && Nat.leb (code c) hi.

Definition is_digit (c : ascii) : bool := in_range 48 57 c.
Definition is_upper (c : ascii) : bool := in_range 65 90 c.
Definition is_lower (c : ascii) : bool := in_range 97 122 c.

(** The character class [[a-zA-Z0-9]]. *)
Definition is_alnum (c : ascii) : bool := is_lower c || is_upper c || is_digit c.

End JsString.

Import JsString.

(* ===================================================================== *)
(** * Remote identity resolver                                            *)
(* ===================================================================== *)

(** The character class [[a-zA-Z0-9.-]] of the three host patterns. *)
Definition is_host_char (c : ascii) : bool :=
  is_alnum c || Ascii.eqb c "." || Ascii.eqb c "-".

(** One of the patterns of [gitlabPatterns],
    [/^<pfx>([a-zA-Z0-9.-]*gitlab[a-zA-Z0-9.-]*|gitlab\.com)<sep>/].
    The separator is not a host character, so a match has to take the whole
    run of host characters after the prefix as its group; the second
    alternative is an instance of the first. *)
Definition host_pattern (pfx : string) (sep : ascii) (s : string) : bool :=
  match drop_prefix pfx s with
  | None => false
  | Some r =>
      let (h, rest) := span is_host_char r in
      includes h "gitlab" &&
      match rest with
      | String c _ => Ascii.eqb c sep
      | EmptyString => false
      end
  end.

(** [gitlabPatterns.some(pattern => pattern.test(normalizedUrl))] *)
Definition matches_gitlab_patterns (normalizedUrl : string) : bool :=
  host_pattern "https://" "/" normalizedUrl
  || host_pattern "git@" ":" normalizedUrl
  || host_pattern "ssh://git@" "/" normalizedUrl.

(** [isGitLabRepository(url)] for a string argument. *)
Definition isGitLabRepository (url : string) : bool :=
  if negb (nonempty url) then false
  else matches_gitlab_patterns (strip_dot_git url).

(** Splits at the first [:], as the group [([^:]+)] followed by [:] does. *)
Fixpoint break_colon (s : string) : option (string * string) :=
  match s with
  | EmptyString => None
  | String c r =>
      if Ascii.eqb c ":" then Some (EmptyString, r)
      else match break_colon r with
           | Some (h, t) => Some (String c h, t)
           | None => None
           end
  end.

(** [s.replace(/^git@([^:]+):/, 'https://$1/')] *)
Definition replace_git_at (s : string) : string :=
  match drop_prefix "git@" s with
  | Some r =>
      match break_colon r with
      | Some (h, rest) =>
          if nonempty h then "https://" ++ h ++ "/" ++ rest else s
      | None => s
      end
  | None => s
  end.

(** [s.replace(/^ssh:\/\/git@/, 'https://')] *)
Definition replace_ssh_scheme (s : string) : string :=
  match drop_prefix "ssh://git@" s with
  | Some r => "https://" ++ r
  | None => s
  end.

(** Lines 77-85 of [parseGitLabUrl]: the two SSH shapes are rewritten to
    the HTTPS shape. *)
Definition ssh_to_https (normalizedUrl : string) : string :=
  let normalizedUrl :=
    if startsWith normalizedUrl "git@" then replace_git_at normalizedUrl
    else normalizedUrl in
  if startsWith normalizedUrl "ssh://git@" then replace_ssh_scheme normalizedUrl
  else normalizedUrl.

(** Lines 75-85: the string handed to [new URL]. *)
Definition normalize_remote (url : string) : string :=
  ssh_to_https (strip_dot_git url).

(** Upper-case hexadecimal digit. *)
Definition hex_digit (n : nat) : ascii :=
  if Nat.ltb n 10 then ascii_of_nat (48 + n) else ascii_of_nat (55 + n).

(** Characters [encodeURIComponent] leaves alone:
    [A-Z a-z 0-9 - _ . ! ~ * ' ( )]. *)
Definition uri_unreserved (c : ascii) : bool :=
  is_alnum c ||
  existsb (Ascii.eqb c) (list_ascii_of_string "-_.!~*'()").

(** [encodeURIComponent(s)]: every other byte of the UTF-8 form becomes
    [%XX]. *)
Fixpoint encodeURIComponent (s : string) : string :=
  match s with
  | EmptyString => EmptyString
  | String c r =>
      if uri_unreserved c then String c (encodeURIComponent r)
      else String "%" (String (hex_digit (code c / 16))
                         (String (hex_digit (code c mod 16))
                            (encodeURIComponent r)))
  end.

(** The two properties of a WHATWG [URL] object that the server reads. *)
Record URLObject := mkURL { url_host : string; url_pathname : string }.

(** The value [parseGitLabUrl] returns on success. *)
Record GitLabInfo := mkInfo {
  host : string;
  namespace : string;
  project : string;
  projectId : string
}.

Section Resolver.

(** The platform's [new URL(s)]: [None] when the constructor throws. *)
Variable URL : string -> option URLObject.

(** [urlObj.pathname.split('/').filter(part => part)] *)
Definition path_parts (u : URLObject) : list string :=
  filter nonempty (split "/" (url_pathname u)).

(** [parseGitLabUrl(url)] for a string argument; [None] is [null]. *)
Definition parseGitLabUrl (url : string) : option GitLabInfo :=
  if negb (nonempty url) then None
  else
    match URL (normalize_remote url) with
    | None => None
    | Some urlObj =>
        let pathParts := path_parts urlObj in
        if Nat.leb 2 (List.length pathParts) then
          Some {| host := url_host urlObj;
                  namespace := join "/" (removelast pathParts);
                  project := last pathParts EmptyString;
                  projectId := encodeURIComponent (join "/" pathParts) |}
        else None
    end.

(** Identity resolution as every operation performs it (lines 121-129):
    the host-family gate, then the parse. *)
Definition resolveIdentity (url : string) : option GitLabInfo :=
  if isGitLabRepository url then parseGitLabUrl url else None.

End Resolver.

(** An instance of the URL constructor for running examples: the WHATWG
    parser on inputs [https://<host><path>] whose host is a non-empty run
    of lower-case letters, digits, [.] and [-] and whose path is empty or
    starts with [/] and has only letters, digits and [/ _ -]; it rejects
    everything else.  On these inputs the parser copies host and path. *)
Definition plain_host_char (c : ascii) : bool :=
  is_lower c || is_digit c || Ascii.eqb c "." || Ascii.eqb c "-".

Definition plain_path_char (c : ascii) : bool :=
  is_alnum c || existsb (Ascii.eqb c) (list_ascii_of_string "/_-").

Definition plainURL (s : string) : option URLObject :=
  match drop_prefix "https://" s with
  | None => None
  | Some r =>
      let (h, p) := span plain_host_char r in
      if nonempty h && all_chars plain_path_char p
         && (negb (nonempty p) || startsWith p "/") then
        Some {| url_host := h;
                url_pathname := if nonempty p then p else "/" |}
      else None
  end.

(* ===================================================================== *)
(** * Node's POSIX [path] functions                                       *)
(* ===================================================================== *)

Module NodePath.

Definition slash : ascii := "/".

Definition is_slash (c : ascii) : bool := Ascii.eqb c slash.

Definition starts_with_slash (s : string) : bool :=
  match s with String c _ => is_slash c | EmptyString => false end.

Fixpoint ends_with_slash (s : string) : bool :=
  match s with
  | EmptyString => false
  | String c EmptyString => is_slash c
  | String _ r => ends_with_slash r
  end.

(** [dirname]'s backward scan, on the reversed characters of
    [path.slice(1)]: first the trailing slashes ... *)
Fixpoint skip_slashes (l : list ascii) : list ascii :=
  match l with
  | c :: l' => if is_slash c then skip_slashes l' else l
  | [] => []
  end.

(** ... then the last segment up to and including the slash before it;
    [None] when index 1 is passed without meeting one ([end === -1]). *)
Fixpoint before_last_segment (l : list ascii) : option (list ascii) :=
  match l with
  | [] => None
  | c :: l' => if is_slash c then Some l' else before_last_segment l'
  end.

(** [path.dirname(p)] *)
Definition dirname (p : string) : string :=
  match p with
  | EmptyString => "."
  | String c0 rest =>
      let hasRoot := is_slash c0 in
      match before_last_segment
              (skip_slashes (rev (list_ascii_of_string rest))) with
      | None => if hasRoot then "/" else "."
      | Some kept =>
          (* [end] is [1 + length kept] *)
          if hasRoot && Nat.eqb (List.length kept) 0 then "//"
          else String c0 (string_of_list_ascii (rev kept))
      end
  end.

(** One segment of [normalizeString], on the stack of the segments kept
    so far (top first). *)
Definition push_segment (allowAboveRoot : bool)
    (stack : list string) (seg : string) : list string :=
  if negb (nonempty seg) || String.eqb seg "." then stack
  else if String.eqb seg ".." then
    match stack with
    | top :: below =>
        if String.eqb top ".." then
          if allowAboveRoot then seg :: stack else stack
        else below
    | [] => if allowAboveRoot then [seg] else []
    end
  else seg :: stack.

(** [path.normalize(p)] *)
Definition normalize (p : string) : string :=
  if negb (nonempty p) then "."
  else
    let isAbsolute := starts_with_slash p in
    let trailingSeparator := ends_with_slash p in
    let body :=
      join "/" (rev (fold_left (push_segment (negb isAbsolute))
                       (split slash p) [])) in
    if negb (nonempty body) then
      if isAbsolute then "/"
      else if trailingSeparator then "./" else "."
    else
      let body := if trailingSeparator then body ++ "/" else body in
      if isAbsolute then "/" ++ body else body.

(** [path.join(...args)] for string arguments. *)
Definition join_paths (args : list string) : string :=
  match filter nonempty args with
  | [] => "."
  | parts => normalize (join "/" parts)
  end.

End NodePath.

(* ===================================================================== *)
(** * Repository locator                                                  *)
(* ===================================================================== *)

Import NodePath.

Section Locator.

(** [existsSync] on the file-system snapshot of the call. *)
Variable existsSync : string -> bool.

(** [existsSync(join(currentPath, '.git'))] *)
Definition has_git_marker (currentPath : string) : bool :=
  existsSync (join_paths [currentPath; ".git"]).

(** The [while] loop of [findGitRepository]; the outer [None] means that
    [fuel] iterations were not enough. *)
Fixpoint findGitRepository_loop (fuel : nat) (currentPath : string)
  : option (option string) :=
  match fuel with
  | O => None
  | S fuel' =>
      if String.eqb currentPath (dirname currentPath) then Some None
      else if has_git_marker currentPath then Some (Some currentPath)
      else findGitRepository_loop fuel' (dirname currentPath)
  end.

(** Every [dirname] step that is not the last one shortens the path, so
    [length startPath + 2] iterations always suffice
    ([findGitRepository_loop_terminates] below). *)
Definition locator_fuel (startPath : string) : nat :=
  String.length startPath + 2.

(** [findGitRepository(startPath)]; [None] is [null]. *)
Definition findGitRepository (startPath : string) : option string :=
  match findGitRepository_loop (locator_fuel startPath) startPath with
  | Some found => found
  | None => None
  end.

(** The directories the loop looks into, closest first: the [dirname]
    iterates of the start that are not fixed points of [dirname]. *)
Fixpoint examined_dirs (fuel : nat) (currentPath : string) : list string :=
  match fuel with
  | O => []
  | S fuel' =>
      if String.eqb currentPath (dirname currentPath) then []
      else currentPath :: examined_dirs fuel' (dirname currentPath)
  end.

(** All [dirname] iterates of the start, the final fixed point (the
    file-system root of an absolute path) included. *)
Fixpoint ancestor_dirs (fuel : nat) (currentPath : string) : list string :=
  match fuel with
  | O => []
  | S fuel' =>
      if String.eqb currentPath (dirname currentPath) then [currentPath]
      else currentPath :: ancestor_dirs fuel' (dirname currentPath)
  end.

End Locator.

(* ===================================================================== *)
(** * JavaScript values                                                   *)
(* ===================================================================== *)

(** What [JSON.parse] and the tool arguments produce, with [undefined].
    An object is its list of own properties in insertion order. *)
#[local] Set Warnings "-register-all".
Inductive value : Type :=
| VUndefined
| VNull
| VBool (b : bool)
| VNum (n : Z)
| VStr (s : string)
| VArr (items : list value)
| VObj (fields : list (string * value)).
#[local] Set Warnings "register-all".

(** The [message] of a thrown [Error]. *)
Definition Exn := string.

Module Js.

(** [ToBoolean] *)
Definition truthy (v : value) : bool :=
  match v with
  | VUndefined | VNull => false
  | VBool b => b
  | VNum n => negb (Z.eqb n 0)
  | VStr s => nonempty s
  | VArr _ | VObj _ => true
  end.

Fixpoint lookup (k : string) (fields : list (string * value)) : value :=
  match fields with
  | [] => VUndefined
  | (k', v) :: rest => if String.eqb k k' then v else lookup k rest
  end.

(** [{...fields, k: v}]: an existing key keeps its place. *)
Fixpoint set_field (k : string) (v : value) (fields : list (string * value))
  : list (string * value) :=
  match fields with
  | [] => [(k, v)]
  | (k', v') :: rest =>
      if String.eqb k k' then (k, v) :: rest
      else (k', v') :: set_field k v rest
  end.

Definition type_error_read (what k : string) : Exn :=
  "Cannot read properties of " ++ what ++ " (reading '" ++ k ++ "')".

(** [v.k] for the property names the server reads ([length] apart, see
    [length_is_zero]): a [TypeError] on [null] and [undefined], the own
    property of an object, [undefined] on every other value. *)
Definition get_prop (v : value) (k : string) : Exn + value :=
  match v with
  | VUndefined => inl (type_error_read "undefined" k)
  | VNull => inl (type_error_read "null" k)
  | VObj fields => inr (lookup k fields)
  | _ => inr VUndefined
  end.

(** [v.length === 0] for a truthy [v]. *)
Definition length_is_zero (v : value) : bool :=
  match v with
  | VArr [] => true
  | VObj fields =>
      match lookup "length" fields with
      | VNum n => Z.eqb n 0
      | _ => false
      end
  | _ => false
  end.

(** [v[0]] for a truthy [v]. *)
Definition first_item (v : value) : value :=
  match v with
  | VArr (x :: _) => x
  | VObj fields => lookup "0" fields
  | VStr (String c _) => VStr (String c EmptyString)
  | _ => VUndefined
  end.

Definition Z_to_string (n : Z) : string :=
  NilZero.string_of_int (Z.to_int n).

Definition nat_to_string (n : nat) : string := Z_to_string (Z.of_nat n).

(** [String(v)], the conversion a template literal applies. *)
Fixpoint to_js_string (v : value) : string :=
  match v with
  | VUndefined => "undefined"
  | VNull => "null"
  | VBool true => "true"
  | VBool false => "false"
  | VNum n => Z_to_string n
  | VStr s => s
  | VArr items =>
      join ","
        (map (fun x => match x with
                       | VUndefined | VNull => EmptyString
                       | _ => to_js_string x
                       end) items)
  | VObj _ => "[object Object]"
  end.

Fixpoint indexed_from (i : nat) (items : list value) : list (string * value) :=
  match items with
  | [] => []
  | x :: rest => (nat_to_string i, x) :: indexed_from (S i) rest
  end.

(** The own enumerable properties an object spread [{...v}] copies
    (the characters of a string are taken per byte). *)
Definition own_props (v : value) : list (string * value) :=
  match v with
  | VObj fields => fields
  | VArr items => indexed_from 0 items
  | VStr s =>
      indexed_from 0
        (map (fun c => VStr (String c EmptyString)) (list_ascii_of_string s))
  | _ => []
  end.

(** The receiver of [jobs.map(...)] / [jobs.filter(...)]: only an array
    has the method. *)
Definition array_method (expr : string) (method : string) (v : value)
  : Exn + list value :=
  match v with
  | VArr items => inr items
  | VUndefined => inl (type_error_read "undefined" method)
  | VNull => inl (type_error_read "null" method)
  | _ => inl (expr ++ "." ++ method ++ " is not a function")
  end.

(** [name.replace(/[^a-zA-Z0-9]/g, '_')] on the UTF-8 form: a character
    outside the class is one UTF-16 unit, or two when its encoding has
    four bytes. *)
Fixpoint replace_non_alnum (s : string) : string :=
  match s with
  | EmptyString => EmptyString
  | String c r =>
      let n := code c in
      if is_alnum c then String c (replace_non_alnum r)
      else if Nat.ltb n 128 then String "_" (replace_non_alnum r)
      else if Nat.ltb n 192 then replace_non_alnum r
      else if Nat.ltb n 240 then String "_" (replace_non_alnum r)
      else String "_" (String "_" (replace_non_alnum r))
  end.

(** [v.replace(/[^a-zA-Z0-9]/g, '_')] *)
Definition replace_method (expr : string) (v : value) : Exn + string :=
  match v with
  | VStr s => inr (replace_non_alnum s)
  | VUndefined => inl (type_error_read "undefined" "replace")
  | VNull => inl (type_error_read "null" "replace")
  | _ => inl (expr ++ ".replace is not a function")
  end.

Definition ws1 (a : nat) : bool :=
  (Nat.leb 9 a && Nat.leb a 13) || Nat.eqb a 32.

Definition ws2 (a b : nat) : bool := Nat.eqb a 194 && Nat.eqb b 160.

Definition ws3 (a b c : nat) : bool :=
  (Nat.eqb a 225 && Nat.eqb b 154 && Nat.eqb c 128)
  || (Nat.eqb a 226 && Nat.eqb b 128
      && ((Nat.leb 128 c && Nat.leb c 138)
          || Nat.eqb c 168 || Nat.eqb c 169 || Nat.eqb c 175))
  || (Nat.eqb a 226 && Nat.eqb b 129 && Nat.eqb c 159)
  || (Nat.eqb a 227 && Nat.eqb b 128 && Nat.eqb c 128)
  || (Nat.eqb a 239 && Nat.eqb b 187 && Nat.eqb c 191).

(** Drops leading white space and line terminators; [fwd] tells whether
    the bytes come in reading order or reversed. *)
Fixpoint drop_space (fwd : bool) (l : list ascii) : list ascii :=
  match l with
  | [] => []
  | a :: r =>
      if ws1 (code a) then drop_space fwd r
      else
        match r with
        | b :: r2 =>
            if (if fwd then ws2 (code a) (code b) else ws2 (code b) (code a))
            then drop_space fwd r2
            else
              match r2 with
              | c :: r3 =>
                  if (if fwd then ws3 (code a) (code b) (code c)
                      else ws3 (code c) (code b) (code a))
                  then drop_space fwd r3
                  else l
              | [] => l
              end
        | [] => l
        end
  end.

(** [s.trim()] *)
Definition trim (s : string) : string :=
  string_of_list_ascii
    (rev (drop_space false
            (rev (drop_space true (list_ascii_of_string s))))).

End Js.

Import Js.

(* ===================================================================== *)
(** * The environment of one operation and its effects                    *)
(* ===================================================================== *)

(** A [node-fetch] response: the status and what each body reader gives. *)
Record Response := mkResponse {
  status : Z;
  text_body : Exn + string;
  json_body : Exn + value;
  buffer_body : Exn + string
}.

(** [response.ok] *)
Definition ok (r : Response) : bool :=
  Z.leb 200 (status r) && Z.leb (status r) 299.

Inductive FetchOutcome : Type :=
| Rejected (reason : Exn)
| Fulfilled (r : Response).

Record Request := mkRequest {
  req_url : string;
  req_headers : list (string * string)
}.

Inductive Event : Type :=
| EFetch (req : Request)
| EMkdir (path : string)
| EWriteFile (path : string) (content : string).

(** Everything outside the process that one run of an operation can see.
    The backend's answer may depend on how many requests came before. *)
Record World := mkWorld {
  fs_existsSync : string -> bool;
  git_remote_get_url_origin : string -> Exn + string;
  env_GITLAB_TOKEN : option string;
  fetch_reply : nat -> Request -> FetchOutcome;
  mkdirSync_error : string -> option Exn;
  writeFileSync_error : string -> string -> option Exn
}.

(** The effects of a run, newest first. *)
Definition Log := list Event.

Definition is_fetch (e : Event) : bool :=
  match e with EFetch _ => true | _ => false end.

Definition fetch_count (log : Log) : nat := List.length (filter is_fetch log).

(** The backend requests of a run, in the order they were issued. *)
Definition requests (log : Log) : list Request :=
  rev (flat_map (fun e => match e with EFetch r => [r] | _ => [] end) log).

(** Computations that log effects and either throw or return. *)
Definition M (A : Type) : Type := Log -> Log * (Exn + A).

Definition ret {A} (a : A) : M A := fun log => (log, inr a).

Definition throw {A} (e : Exn) : M A := fun log => (log, inl e).

Definition bind {A B} (m : M A) (f : A -> M B) : M B :=
  fun log =>
    match m log with
    | (log', inr a) => f a log'
    | (log', inl e) => (log', inl e)
    end.

(** [try { body } catch (error) { handler(error.message) }] *)
Definition try_catch {A} (body : M A) (handler : Exn -> M A) : M A :=
  fun log =>
    match body log with
    | (log', inr a) => (log', inr a)
    | (log', inl e) => handler e log'
    end.

Definition lift {A} (r : Exn + A) : M A :=
  match r with
  | inl e => throw e
  | inr a => ret a
  end.

Declare Scope js_scope.
Delimit Scope js_scope with js.
Notation "x <- m ;; k" := (bind m (fun x => k))
  (at level 61, m at next level, right associativity) : js_scope.
Notation "' pat <- m ;; k" := (bind m (fun x => match x with pat => k end))
  (at level 61, pat pattern, m at next level, right associativity) : js_scope.
Notation "m ;;; k" := (bind m (fun _ => k))
  (at level 61, right associativity) : js_scope.
Open Scope js_scope.

(** [await Promise.all(items.map(callback))]: the callbacks start in list
    order, each one runs whether or not another one rejects, and the first
    rejection (in list order) is the rejection of the whole. *)
Fixpoint promise_all {A} (callbacks : list (M A)) : M (list A) :=
  match callbacks with
  | [] => ret []
  | c :: rest =>
      fun log =>
        let '(log1, r) := c log in
        let '(log2, rs) := promise_all rest log1 in
        (log2,
         match r, rs with
         | inr a, inr others => inr (a :: others)
         | inl e, _ => inl e
         | inr _, inl e => inl e
         end)
  end.

(** [for (const x of items) { acc = step(acc, x) }] *)
Fixpoint for_of {A S} (items : list A) (step : S -> A -> M S) (acc : S) : M S :=
  match items with
  | [] => ret acc
  | x :: rest => acc' <- step acc x ;; for_of rest step acc'
  end.

(** A callback over the items of an array that may throw. *)
Fixpoint filter_throwing {A} (f : A -> Exn + bool) (items : list A)
  : Exn + list A :=
  match items with
  | [] => inr []
  | x :: rest =>
      match f x with
      | inl e => inl e
      | inr keep =>
          match filter_throwing f rest with
          | inl e => inl e
          | inr kept => inr (if keep then x :: kept else kept)
          end
      end
  end.

Fixpoint map_throwing {A B} (f : A -> Exn + B) (items : list A) : Exn + list B :=
  match items with
  | [] => inr []
  | x :: rest =>
      match f x with
      | inl e => inl e
      | inr y =>
          match map_throwing f rest with
          | inl e => inl e
          | inr ys => inr (y :: ys)
          end
      end
  end.

(* ===================================================================== *)
(** * The core operations of [GitLabMCPServer]                            *)
(* ===================================================================== *)

(** The envelope every operation returns; [data] is [VNull] for [null]. *)
Record Envelope := mkEnvelope {
  success : bool;
  message : string;
  data : value
}.

Definition msg_repo_not_found (projectPath : string) : Exn :=
  "Git репозиторий не найден в указанной директории: " ++ projectPath.

Definition msg_not_gitlab (repoUrl : string) : Exn :=
  "Это не GitLab репозиторий: " ++ repoUrl.

Definition msg_unparsable (repoUrl : string) : Exn :=
  "Не удалось распарсить GitLab URL: " ++ repoUrl.

Definition msg_missing_token : Exn :=
  "GITLAB_TOKEN не установлен. Установите переменную окружения GITLAB_TOKEN для доступа к GitLab API.".

Definition msg_no_pipelines : string := "Пайплайны не найдены".

Definition msg_upstream (what : string) (r : Response) (errorText : string)
  : Exn :=
  "GitLab API вернул ошибку" ++ what ++ " " ++ Z_to_string (status r)
  ++ ": " ++ errorText.

Definition trace_error_prefix : string := "Ошибка при получении логов: ".

(** A parameter default [= null] applies to [undefined] only. *)
Definition default_null (v : value) : value :=
  match v with VUndefined => VNull | _ => v end.

Definition json_headers (gitlabToken : string) : list (string * string) :=
  [("Authorization", "Bearer " ++ gitlabToken);
   ("Content-Type", "application/json")].

Definition auth_headers (gitlabToken : string) : list (string * string) :=
  [("Authorization", "Bearer " ++ gitlabToken)].

(** [https://${host}/api/v4/projects/${projectId}<path>] *)
Definition api_url (gitlabInfo : GitLabInfo) (path : string) : string :=
  "https://" ++ host gitlabInfo ++ "/api/v4/projects/"
  ++ projectId gitlabInfo ++ path.

Definition api_get (gitlabInfo : GitLabInfo) (gitlabToken path : string)
  : Request :=
  mkRequest (api_url gitlabInfo path) (json_headers gitlabToken).

Definition latest_pipeline_request (gitlabInfo : GitLabInfo) (gitlabToken : string)
  : Request :=
  api_get gitlabInfo gitlabToken
    "/pipelines?per_page=1&order_by=updated_at&sort=desc".

Definition pipeline_request gitlabInfo gitlabToken (targetPipelineId : value)
  : Request :=
  api_get gitlabInfo gitlabToken
    ("/pipelines/" ++ to_js_string targetPipelineId).

Definition pipeline_jobs_request gitlabInfo gitlabToken (targetPipelineId : value)
  : Request :=
  api_get gitlabInfo gitlabToken
    ("/pipelines/" ++ to_js_string targetPipelineId ++ "/jobs").

Definition pipeline_artifacts_request gitlabInfo gitlabToken
    (targetPipelineId : value) : Request :=
  api_get gitlabInfo gitlabToken
    ("/pipelines/" ++ to_js_string targetPipelineId ++ "/artifacts").

Definition job_request gitlabInfo gitlabToken (jobId : value) : Request :=
  api_get gitlabInfo gitlabToken ("/jobs/" ++ to_js_string jobId).

Definition job_trace_request gitlabInfo gitlabToken (jobId : value) : Request :=
  api_get gitlabInfo gitlabToken ("/jobs/" ++ to_js_string jobId ++ "/trace").

Definition job_artifacts_request gitlabInfo gitlabToken (jobId : value)
  : Request :=
  api_get gitlabInfo gitlabToken ("/jobs/" ++ to_js_string jobId ++ "/artifacts").

(** The archive download sends the [Authorization] header only. *)
Definition archive_request (gitlabInfo : GitLabInfo) (gitlabToken : string)
    (jobId : value) : Request :=
  mkRequest
    (api_url gitlabInfo ("/jobs/" ++ to_js_string jobId ++ "/artifacts"))
    (auth_headers gitlabToken).

(** [{ host: ..., namespace: ..., name: ... }] *)
Definition project_value (gitlabInfo : GitLabInfo) : value :=
  VObj [("host", VStr (host gitlabInfo));
        ("namespace", VStr (namespace gitlabInfo));
        ("name", VStr (project gitlabInfo))].

(** [{ k1: v.k1, k2: v.k2, ... }] *)
Definition pick (v : value) (keys : list string)
  : Exn + list (string * value) :=
  map_throwing
    (fun k => match get_prop v k with
              | inl e => inl e
              | inr x => inr (k, x)
              end) keys.

(** [job.artifacts_file && job.artifacts_file.filename], as a condition. *)
Definition has_artifacts_file (job : value) : Exn + bool :=
  match get_prop job "artifacts_file" with
  | inl e => inl e
  | inr af =>
      if truthy af then
        match get_prop af "filename" with
        | inl e => inl e
        | inr fname => inr (truthy fname)
        end
      else inr false
  end.

(** A path argument of [fs] or [path]: anything but a string is rejected
    with a [TypeError]. *)
Definition as_path (v : value) : Exn + string :=
  match v with
  | VStr s => inr s
  | _ => inl "The path argument must be of type string"
  end.

Definition failure (e : Exn) : M Envelope :=
  ret (mkEnvelope false e VNull).

Section Server.

Variable URL : string -> option URLObject.
Variable w : World.

(** Lines 110-129, repeated at the head of every operation: locate the
    repository, read the remote, check the host family, parse. *)
Definition locate_and_resolve (projectPath : string) : Exn + GitLabInfo :=
  match findGitRepository (fs_existsSync w) projectPath with
  | None => inl (msg_repo_not_found projectPath)
  | Some gitRepoPath =>
      if negb (nonempty gitRepoPath) then
        inl (msg_repo_not_found projectPath)
      else
        match git_remote_get_url_origin w gitRepoPath with
        | inl e => inl e
        | inr stdout =>
            let repoUrl := trim stdout in
            if negb (isGitLabRepository repoUrl) then
              inl (msg_not_gitlab repoUrl)
            else
              match parseGitLabUrl URL repoUrl with
              | None => inl (msg_unparsable repoUrl)
              | Some gitlabInfo => inr gitlabInfo
              end
        end
  end.

(** Lines 131-135: [process.env.GITLAB_TOKEN], which must be truthy. *)
Definition read_token : Exn + string :=
  match env_GITLAB_TOKEN w with
  | None => inl msg_missing_token
  | Some gitlabToken =>
      if negb (nonempty gitlabToken) then inl msg_missing_token
      else inr gitlabToken
  end.

(** Lines 110-135.  No backend request and no write happens here. *)
Definition resolve_project (projectPath : string)
  : Exn + (GitLabInfo * string) :=
  match locate_and_resolve projectPath with
  | inl e => inl e
  | inr gitlabInfo =>
      match read_token with
      | inl e => inl e
      | inr gitlabToken => inr (gitlabInfo, gitlabToken)
      end
  end.

(** [await fetch(url, { headers })] *)
Definition fetch (req : Request) : M Response :=
  fun log =>
    (EFetch req :: log,
     match fetch_reply w (fetch_count log) req with
     | Rejected e => inl e
     | Fulfilled r => inr r
     end).

Definition text (r : Response) : M string := lift (text_body r).
Definition json (r : Response) : M value := lift (json_body r).
Definition buffer (r : Response) : M string := lift (buffer_body r).

(** [mkdirSync(path, { recursive: true })] *)
Definition mkdirSync (path : string) : M unit :=
  fun log =>
    (EMkdir path :: log,
     match mkdirSync_error w path with
     | Some e => inl e
     | None => inr tt
     end).

(** [writeFileSync(path, content)] *)
Definition writeFileSync (path content : string) : M unit :=
  fun log =>
    (EWriteFile path content :: log,
     match writeFileSync_error w path content with
     | Some e => inl e
     | None => inr tt
     end).

(** [const errorText = await r.text(); throw new Error(...)] *)
Definition throw_upstream {A} (what : string) (r : Response) : M A :=
  errorText <- text r ;;
  throw (msg_upstream what r errorText).

(** Lines 138-164 and 764-790: the pipeline to work on.  [inl] is the
    early [return] of the no-pipelines envelope. *)
Definition resolve_pipeline_id (gitlabInfo : GitLabInfo)
    (gitlabToken : string) (pipelineId : value) : M (Envelope + value) :=
  if negb (truthy pipelineId) then
    latestResponse <- fetch (latest_pipeline_request gitlabInfo gitlabToken) ;;
    if negb (ok latestResponse) then
      throw_upstream " при получении последнего пайплайна" latestResponse
    else
      latestPipelines <- json latestResponse ;;
      if negb (truthy latestPipelines) || length_is_zero latestPipelines then
        ret (inl (mkEnvelope true msg_no_pipelines VNull))
      else
        id <- lift (get_prop (first_item latestPipelines) "id") ;;
        ret (inr id)
  else ret (inr pipelineId).

(** The callback of [jobs.map] at lines 211-237. *)
Definition fetch_job_trace (gitlabInfo : GitLabInfo) (gitlabToken : string)
    (job : value) : M value :=
  try_catch
    (jobId <- lift (get_prop job "id") ;;
     traceResponse <- fetch (job_trace_request gitlabInfo gitlabToken jobId) ;;
     trace <- (if ok traceResponse then text traceResponse
               else ret EmptyString) ;;
     ret (VObj (set_field "trace" (VStr trace) (own_props job))))
    (fun error_message =>
       (* the [console.error] line reads [job.id] *)
       _ <- lift (get_prop job "id") ;;
       ret (VObj (set_field "trace"
                    (VStr (trace_error_prefix ++ error_message))
                    (own_props job)))).

Definition pipeline_keys : list string :=
  ["id"; "status"; "ref"; "sha"; "web_url"; "created_at"; "updated_at";
   "duration"; "coverage"; "source"; "before_sha"; "tag"; "yaml_errors";
   "user"].

Definition getPipelineDetails_body (projectPath : string)
    (pipelineId : value) : M Envelope :=
  '(gitlabInfo, gitlabToken) <- lift (resolve_project projectPath) ;;
  target <- resolve_pipeline_id gitlabInfo gitlabToken
              (default_null pipelineId) ;;
  match target with
  | inl envelope => ret envelope
  | inr targetPipelineId =>
      pipelineResponse <-
        fetch (pipeline_request gitlabInfo gitlabToken targetPipelineId) ;;
      if negb (ok pipelineResponse) then
        throw_upstream " при получении пайплайна" pipelineResponse
      else
        pipeline <- json pipelineResponse ;;
        jobsResponse <-
          fetch (pipeline_jobs_request gitlabInfo gitlabToken
                   targetPipelineId) ;;
        jobs <- (if ok jobsResponse then json jobsResponse
                 else ret (VArr [])) ;;
        artifactsResponse <-
          fetch (pipeline_artifacts_request gitlabInfo gitlabToken
                   targetPipelineId) ;;
        artifacts <- (if ok artifactsResponse then json artifactsResponse
                      else ret (VArr [])) ;;
        jobItems <- lift (array_method "jobs" "map" jobs) ;;
        jobsWithLogs <-
          promise_all (map (fetch_job_trace gitlabInfo gitlabToken)
                         jobItems) ;;
        pipelineFields <- lift (pick pipeline pipeline_keys) ;;
        ret (mkEnvelope true
               "Подробная информация о пайплайне получена успешно"
               (VObj [("pipeline",
                       VObj (pipelineFields
                             ++ [("project", project_value gitlabInfo)])%list);
                      ("jobs", VArr jobsWithLogs);
                      ("artifacts", artifacts)]))
  end.

(** [getPipelineDetails(projectPath, pipelineId = null)] *)
Definition getPipelineDetails (projectPath : string) (pipelineId : value)
  : M Envelope :=
  try_catch (getPipelineDetails_body projectPath pipelineId) failure.

(** Lines 309-323, shared by the single-job operations: fetch the job. *)
Definition fetch_job (gitlabInfo : GitLabInfo) (gitlabToken : string)
    (jobId : value) : M value :=
  jobResponse <- fetch (job_request gitlabInfo gitlabToken jobId) ;;
  if negb (ok jobResponse) then
    throw_upstream " при получении джоба" jobResponse
  else json jobResponse.

Definition getJobDetails_body (projectPath : string) (jobId : value)
  : M Envelope :=
  '(gitlabInfo, gitlabToken) <- lift (resolve_project projectPath) ;;
  job <- fetch_job gitlabInfo gitlabToken jobId ;;
  ret (mkEnvelope true "Информация о джобе получена успешно"
         (VObj [("job", job); ("project", project_value gitlabInfo)])).

(** [getJobDetails(projectPath, jobId)] *)
Definition getJobDetails (projectPath : string) (jobId : value)
  : M Envelope :=
  try_catch (getJobDetails_body projectPath jobId) failure.

Definition getJobLogs_body (projectPath : string) (jobId : value)
  : M Envelope :=
  '(gitlabInfo, gitlabToken) <- lift (resolve_project projectPath) ;;
  job <- fetch_job gitlabInfo gitlabToken jobId ;;
  traceResponse <- fetch (job_trace_request gitlabInfo gitlabToken jobId) ;;
  trace <- (if ok traceResponse then text traceResponse
            else ret EmptyString) ;;
  ret (mkEnvelope true "Логи джоба получены успешно"
         (VObj [("job", job); ("logs", VStr trace);
                ("project", project_value gitlabInfo)])).

(** [getJobLogs(projectPath, jobId)] *)
Definition getJobLogs (projectPath : string) (jobId : value) : M Envelope :=
  try_catch (getJobLogs_body projectPath jobId) failure.

Definition getJobArtifacts_body (projectPath : string) (jobId : value)
  : M Envelope :=
  '(gitlabInfo, gitlabToken) <- lift (resolve_project projectPath) ;;
  job <- fetch_job gitlabInfo gitlabToken jobId ;;
  artifactsResponse <-
    fetch (job_artifacts_request gitlabInfo gitlabToken jobId) ;;
  artifacts <-
    (if ok artifactsResponse then
       artifactsListResponse <-
         fetch (job_artifacts_request gitlabInfo gitlabToken jobId) ;;
       if ok artifactsListResponse then
         listed <- lift (get_prop job "artifacts") ;;
         ret (if truthy listed then listed else VArr [])
       else ret (VArr [])
     else ret (VArr [])) ;;
  ret (mkEnvelope true "Артефакты джоба получены успешно"
         (VObj [("job", job); ("artifacts", artifacts);
                ("project", project_value gitlabInfo)])).

(** [getJobArtifacts(projectPath, jobId)] *)
Definition getJobArtifacts (projectPath : string) (jobId : value)
  : M Envelope :=
  try_catch (getJobArtifacts_body projectPath jobId) failure.

Definition latest_keys : list string :=
  ["id"; "status"; "ref"; "sha"; "web_url"; "created_at"; "updated_at";
   "duration"; "coverage"].

Definition getLatestPipeline_body (projectPath : string) : M Envelope :=
  '(gitlabInfo, gitlabToken) <- lift (resolve_project projectPath) ;;
  response <- fetch (latest_pipeline_request gitlabInfo gitlabToken) ;;
  if negb (ok response) then throw_upstream "" response
  else
    pipelines <- json response ;;
    if negb (truthy pipelines) || length_is_zero pipelines then
      ret (mkEnvelope true msg_no_pipelines VNull)
    else
      latestFields <- lift (pick (first_item pipelines) latest_keys) ;;
      ret (mkEnvelope true "Последний пайплайн получен успешно"
             (VObj (latestFields
                    ++ [("project", project_value gitlabInfo)])%list)).

(** [getLatestPipeline(projectPath)] *)
Definition getLatestPipeline (projectPath : string) : M Envelope :=
  try_catch (getLatestPipeline_body projectPath) failure.

(** Lines 678-688 and 824-834: the directory to write into, created when
    it does not exist. *)
Definition prepare_download_dir (projectPath : string) (downloadPath : value)
    (subdir : string) : M string :=
  let targetDownloadPath :=
    if negb (truthy downloadPath) then
      VStr (join_paths [projectPath; "artifacts"; subdir])
    else downloadPath in
  match targetDownloadPath with
  | VStr dir =>
      if negb (fs_existsSync w dir) then mkdirSync dir ;;; ret dir
      else ret dir
  | other =>
      (* [existsSync] answers [false], [mkdirSync] rejects the argument *)
      _ <- lift (as_path other) ;; ret EmptyString
  end.

Definition downloadJobArtifacts_body (projectPath : string) (jobId : value)
    (downloadPath : value) : M Envelope :=
  '(gitlabInfo, gitlabToken) <- lift (resolve_project projectPath) ;;
  job <- fetch_job gitlabInfo gitlabToken jobId ;;
  hasArtifacts <- lift (has_artifacts_file job) ;;
  if negb hasArtifacts then
    ret (mkEnvelope true "У джоба нет артефактов для скачивания"
           (VObj [("job", job); ("downloadedFiles", VArr []);
                  ("downloadPath", VNull)]))
  else
    targetDownloadPath <-
      prepare_download_dir projectPath (default_null downloadPath)
        ("job_" ++ to_js_string jobId) ;;
    artifactsResponse <-
      fetch (archive_request gitlabInfo gitlabToken jobId) ;;
    if negb (ok artifactsResponse) then
      throw_upstream " при скачивании артефактов" artifactsResponse
    else
      artifactsBuffer <- buffer artifactsResponse ;;
      let archiveFileName :=
        "artifacts_job_" ++ to_js_string jobId ++ ".zip" in
      let archivePath := join_paths [targetDownloadPath; archiveFileName] in
      writeFileSync archivePath artifactsBuffer ;;;
      ret (mkEnvelope true "Артефакты джоба скачаны успешно"
             (VObj [("job", job);
                    ("downloadedFiles", VArr [VStr archiveFileName]);
                    ("downloadPath", VStr targetDownloadPath);
                    ("archivePath", VStr archivePath);
                    ("archiveSize",
                     VNum (Z.of_nat (String.length artifactsBuffer)))])).

(** [downloadJobArtifacts(projectPath, jobId, downloadPath = null)] *)
Definition downloadJobArtifacts (projectPath : string) (jobId : value)
    (downloadPath : value) : M Envelope :=
  try_catch (downloadJobArtifacts_body projectPath jobId downloadPath)
    failure.

(** The [DownloadOutcome] pushed for a failed download. *)
Definition failed_outcome (jobId jobName : value) (error : string) : value :=
  VObj [("jobId", jobId); ("jobName", jobName); ("fileName", VNull);
        ("size", VNum 0); ("success", VBool false); ("error", VStr error)].

(** The locals [downloadedFiles] and [downloadResults], oldest first. *)
Definition DownloadState : Type := list string * list value.

(** One iteration of the [for] loop at lines 840-884. *)
Definition download_job (gitlabInfo : GitLabInfo) (gitlabToken : string)
    (targetDownloadPath : string) (acc : DownloadState) (job : value)
  : M DownloadState :=
  try_catch
    (jobId <- lift (get_prop job "id") ;;
     artifactsResponse <-
       fetch (archive_request gitlabInfo gitlabToken jobId) ;;
     if ok artifactsResponse then
       artifactsBuffer <- buffer artifactsResponse ;;
       jobName <- lift (get_prop job "name") ;;
       safeName <- lift (replace_method "job.name" jobName) ;;
       let archiveFileName :=
         "artifacts_job_" ++ to_js_string jobId ++ "_" ++ safeName
         ++ ".zip" in
       let archivePath := join_paths [targetDownloadPath; archiveFileName] in
       writeFileSync archivePath artifactsBuffer ;;;
       ret ((fst acc ++ [archiveFileName])%list,
            (snd acc
             ++ [VObj [("jobId", jobId); ("jobName", jobName);
                       ("fileName", VStr archiveFileName);
                       ("size",
                        VNum (Z.of_nat (String.length artifactsBuffer)));
                       ("success", VBool true)]])%list)
     else
       jobName <- lift (get_prop job "name") ;;
       ret (fst acc,
            (snd acc
             ++ [failed_outcome jobId jobName
                   ("HTTP " ++ Z_to_string (status artifactsResponse))])%list))
    (fun error_message =>
       jobId <- lift (get_prop job "id") ;;
       jobName <- lift (get_prop job "name") ;;
       ret (fst acc,
            (snd acc ++ [failed_outcome jobId jobName error_message])%list)).

(** [downloadResults.filter(r => r.success).length] and its complement. *)
Definition outcome_succeeded (r : value) : bool :=
  match get_prop r "success" with
  | inr v => truthy v
  | inl _ => false
  end.

Definition msg_downloaded (downloadResults : list value) : string :=
  "Артефакты пайплайна скачаны. Успешно: "
  ++ nat_to_string (List.length (filter outcome_succeeded downloadResults))
  ++ ", Ошибок: "
  ++ nat_to_string
       (List.length
          (filter (fun r => negb (outcome_succeeded r)) downloadResults)).

Definition downloadPipelineArtifacts_body (projectPath : string)
    (pipelineId : value) (downloadPath : value) : M Envelope :=
  '(gitlabInfo, gitlabToken) <- lift (resolve_project projectPath) ;;
  target <- resolve_pipeline_id gitlabInfo gitlabToken
              (default_null pipelineId) ;;
  match target with
  | inl envelope => ret envelope
  | inr targetPipelineId =>
      jobsResponse <-
        fetch (pipeline_jobs_request gitlabInfo gitlabToken
                 targetPipelineId) ;;
      if negb (ok jobsResponse) then
        throw_upstream " при получении джобов пайплайна" jobsResponse
      else
        jobs <- json jobsResponse ;;
        jobItems <- lift (array_method "jobs" "filter" jobs) ;;
        jobsWithArtifacts <-
          lift (filter_throwing has_artifacts_file jobItems) ;;
        match jobsWithArtifacts with
        | [] =>
            ret (mkEnvelope true "В пайплайне нет джобов с артефактами"
                   (VObj [("pipelineId", targetPipelineId);
                          ("jobs", jobs);
                          ("downloadedFiles", VArr []);
                          ("downloadPath", VNull)]))
        | _ :: _ =>
            targetDownloadPath <-
              prepare_download_dir projectPath (default_null downloadPath)
                ("pipeline_" ++ to_js_string targetPipelineId) ;;
            '(downloadedFiles, downloadResults) <-
              for_of jobsWithArtifacts
                (download_job gitlabInfo gitlabToken targetDownloadPath)
                ([], []) ;;
            ret (mkEnvelope true (msg_downloaded downloadResults)
                   (VObj [("pipelineId", targetPipelineId);
                          ("jobs", jobs);
                          ("jobsWithArtifacts", VArr jobsWithArtifacts);
                          ("downloadedFiles",
                           VArr (map VStr downloadedFiles));
                          ("downloadPath", VStr targetDownloadPath);
                          ("downloadResults", VArr downloadResults)]))
        end
  end.

(** [downloadPipelineArtifacts(projectPath, pipelineId = null,
    downloadPath = null)] *)
Definition downloadPipelineArtifacts (projectPath : string)
    (pipelineId : value) (downloadPath : value) : M Envelope :=
  try_catch
    (downloadPipelineArtifacts_body projectPath pipelineId downloadPath)
    failure.

(** The calls the tool handlers make into the core. *)
Inductive Operation : Type :=
| GetLatestPipeline (projectPath : string)
| GetPipelineDetails (projectPath : string) (pipelineId : value)
| GetJobDetails (projectPath : string) (jobId : value)
| GetJobLogs (projectPath : string) (jobId : value)
| GetJobArtifacts (projectPath : string) (jobId : value)
| DownloadJobArtifacts (projectPath : string) (jobId downloadPath : value)
| DownloadPipelineArtifacts (projectPath : string)
    (pipelineId downloadPath : value).

Definition operation_path (op : Operation) : string :=
  match op with
  | GetLatestPipeline p | GetPipelineDetails p _ | GetJobDetails p _
  | GetJobLogs p _ | GetJobArtifacts p _ | DownloadJobArtifacts p _ _
  | DownloadPipelineArtifacts p _ _ => p
  end.

(** One call of an operation, started with no effect behind it. *)
Definition perform (op : Operation) : Log * (Exn + Envelope) :=
  match op with
  | GetLatestPipeline p => getLatestPipeline p []
  | GetPipelineDetails p pipelineId => getPipelineDetails p pipelineId []
  | GetJobDetails p jobId => getJobDetails p jobId []
  | GetJobLogs p jobId => getJobLogs p jobId []
  | GetJobArtifacts p jobId => getJobArtifacts p jobId []
  | DownloadJobArtifacts p jobId downloadPath =>
      downloadJobArtifacts p jobId downloadPath []
  | DownloadPipelineArtifacts p pipelineId downloadPath =>
      downloadPipelineArtifacts p pipelineId downloadPath []
  end.

End Server.

(* ===================================================================== *)
(** * Vocabulary of the statements                                        *)
(* ===================================================================== *)

(** ** Remote URLs *)

(** A host made of the characters the host patterns allow. *)
Definition host_chars (h : string) : bool := all_chars is_host_char h.

(** The three renderings of the project with path [p] on host [h]. *)
Definition https_form (h p : string) : string := "https://" ++ h ++ "/" ++ p.

Definition scp_form (h p : string) : string := "git@" ++ h ++ ":" ++ p.

Definition ssh_form (h p : string) : string := "ssh://git@" ++ h ++ "/" ++ p.

(** ** What the environment did *)

(** [process.env.GITLAB_TOKEN] is unset or empty. *)
Definition credential_absent (w : World) : bool :=
  match env_GITLAB_TOKEN w with
  | None => true
  | Some gitlabToken => negb (nonempty gitlabToken)
  end.

(** A backend call has failed when the request was rejected (transport
    error) or answered with a status outside 200-299. *)
Definition call_failed (o : FetchOutcome) : bool :=
  match o with
  | Rejected _ => true
  | Fulfilled r => negb (ok r)
  end.

(** What lines 191-194 and 205-208 leave in [jobs] / [artifacts] for an
    answered call; [None] when the call or the reading of its body
    throws. *)
Definition listing_answer (o : FetchOutcome) : option value :=
  match o with
  | Rejected _ => None
  | Fulfilled r =>
      if ok r then
        match json_body r with
        | inr v => Some v
        | inl _ => None
        end
      else Some (VArr [])
  end.

(** The operation starts by asking the backend for the latest pipeline. *)
Definition asks_latest (op : Operation) : bool :=
  match op with
  | GetLatestPipeline _ => true
  | GetPipelineDetails _ pipelineId
  | DownloadPipelineArtifacts _ pipelineId _ =>
      negb (truthy (default_null pipelineId))
  | _ => false
  end.

(** The first request of the run, the pipeline list, was answered OK with
    a body that holds no pipeline. *)
Definition no_pipelines_listed (w : World) (gitlabInfo : GitLabInfo)
    (gitlabToken : string) : Prop :=
  exists r v,
    fetch_reply w 0 (latest_pipeline_request gitlabInfo gitlabToken)
    = Fulfilled r
    /\ ok r = true
    /\ json_body r = inr v
    /\ negb (truthy v) || length_is_zero v = true.

Definition is_nullish (v : value) : bool :=
  match v with
  | VUndefined | VNull => true
  | _ => false
  end.

(** [v.k], with [undefined] where the access throws. *)
Definition field (v : value) (k : string) : value :=
  match get_prop v k with
  | inr x => x
  | inl _ => VUndefined
  end.

Definition job_id (job : value) : value := field job "id".

Definition job_name (job : value) : value := field job "name".

(** ** What [getPipelineDetails] is expected to compose *)

(** The [trace] attached to a job, as a function of how its own trace
    request was answered. *)
Definition trace_of (o : FetchOutcome) : string :=
  match o with
  | Rejected e => trace_error_prefix ++ e
  | Fulfilled r =>
      if ok r then
        match text_body r with
        | inr t => t
        | inl e => trace_error_prefix ++ e
        end
      else EmptyString
  end.

(** A trace that reports an error rather than log text. *)
Definition is_diagnostic (trace : value) : bool :=
  match trace with
  | VStr s => startsWith s trace_error_prefix
  | _ => false
  end.

Section Expected.

Variable w : World.
Variable gitlabInfo : GitLabInfo.
Variable gitlabToken : string.

(** The pipeline resource was fetched by the [n]-th request of the run:
    status OK, a JSON body that is not [null]. *)
Definition pipeline_fetched (n : nat) (targetPipelineId pipeline : value)
  : Prop :=
  exists r,
    fetch_reply w n (pipeline_request gitlabInfo gitlabToken targetPipelineId)
    = Fulfilled r
    /\ ok r = true
    /\ json_body r = inr pipeline
    /\ is_nullish pipeline = false.

(** The answer to the trace request of [job], issued as the [n]-th
    request of the run. *)
Definition trace_reply (n : nat) (job : value) : FetchOutcome :=
  fetch_reply w n (job_trace_request gitlabInfo gitlabToken (job_id job)).

Definition with_trace (n : nat) (job : value) : value :=
  VObj (set_field "trace" (VStr (trace_of (trace_reply n job)))
          (own_props job)).

(** The jobs with their traces, the first trace request being the
    [n]-th request of the run. *)
Fixpoint with_traces (n : nat) (jobs : list value) : list value :=
  match jobs with
  | [] => []
  | job :: rest => with_trace n job :: with_traces (S n) rest
  end.

Definition trace_events (jobs : list value) : Log :=
  rev (map (fun job =>
              EFetch (job_trace_request gitlabInfo gitlabToken (job_id job)))
         jobs).

End Expected.

Definition pick_fields (v : value) (keys : list string)
  : list (string * value) :=
  map (fun k => (k, field v k)) keys.

(** The payload of [getPipelineDetails]. *)
Definition details_payload (gitlabInfo : GitLabInfo)
    (pipeline : value) (jobsWithLogs : list value) (artifacts : value)
  : value :=
  VObj [("pipeline",
         VObj (pick_fields pipeline pipeline_keys
               ++ [("project", project_value gitlabInfo)])%list);
        ("jobs", VArr jobsWithLogs);
        ("artifacts", artifacts)].

(** The [i]-th job of the payload of [getPipelineDetails]. *)
Definition nth_job (i : nat) (envelope : Envelope) : value :=
  match field (data envelope) "jobs" with
  | VArr jobs => nth i jobs VUndefined
  | _ => VUndefined
  end.

(** ** What [downloadPipelineArtifacts] is expected to record *)

(** How the download of one job's archive ends. *)
Inductive Attempt : Type :=
| Saved (fileName path content : string)
| Failed (error : string) (written : option (string * string)).

Section ExpectedDownloads.

Variable w : World.
Variable gitlabInfo : GitLabInfo.
Variable gitlabToken : string.
Variable targetDownloadPath : string.

(** The answer to the archive request of [job], issued as the [n]-th
    request of the run. *)
Definition archive_reply (n : nat) (job : value) : FetchOutcome :=
  fetch_reply w n (archive_request gitlabInfo gitlabToken (job_id job)).

(** The iteration for [job]: the download fails when the request is
    rejected or answered with a non-OK status, and when reading the
    body, building the file name or writing the file throws. *)
Definition attempt (n : nat) (job : value) : Attempt :=
  match archive_reply n job with
  | Rejected e => Failed e None
  | Fulfilled r =>
      if ok r then
        match buffer_body r with
        | inl e => Failed e None
        | inr content =>
            match replace_method "job.name" (job_name job) with
            | inl e => Failed e None
            | inr safeName =>
                let fileName :=
                  "artifacts_job_" ++ to_js_string (job_id job) ++ "_"
                  ++ safeName ++ ".zip" in
                let path := join_paths [targetDownloadPath; fileName] in
                match writeFileSync_error w path content with
                | Some e => Failed e (Some (path, content))
                | None => Saved fileName path content
                end
            end
        end
      else Failed ("HTTP " ++ Z_to_string (status r)) None
  end.

(** The download succeeded: the archive was fetched and written. *)
Definition download_succeeds (n : nat) (job : value) : bool :=
  match attempt n job with
  | Saved _ _ _ => true
  | Failed _ _ => false
  end.

(** The [DownloadOutcome] of the iteration. *)
Definition download_outcome (n : nat) (job : value) : value :=
  match attempt n job with
  | Saved fileName _ content =>
      VObj [("jobId", job_id job); ("jobName", job_name job);
            ("fileName", VStr fileName);
            ("size", VNum (Z.of_nat (String.length content)));
            ("success", VBool true)]
  | Failed e _ => failed_outcome (job_id job) (job_name job) e
  end.

Definition download_file (n : nat) (job : value) : list string :=
  match attempt n job with
  | Saved fileName _ _ => [fileName]
  | Failed _ _ => []
  end.

(** The effects of the iteration, newest first. *)
Definition download_events (n : nat) (job : value) : Log :=
  let request :=
    EFetch (archive_request gitlabInfo gitlabToken (job_id job)) in
  match attempt n job with
  | Saved _ path content
  | Failed _ (Some (path, content)) => [EWriteFile path content; request]
  | Failed _ None => [request]
  end.

Fixpoint download_outcomes (n : nat) (jobs : list value) : list value :=
  match jobs with
  | [] => []
  | job :: rest => download_outcome n job :: download_outcomes (S n) rest
  end.

Fixpoint download_files (n : nat) (jobs : list value) : list string :=
  match jobs with
  | [] => []
  | job :: rest => (download_file n job ++ download_files (S n) rest)%list
  end.

Fixpoint loop_events (n : nat) (jobs : list value) : Log :=
  match jobs with
  | [] => []
  | job :: rest => (loop_events (S n) rest ++ download_events n job)%list
  end.

End ExpectedDownloads.

(** The payload of [downloadPipelineArtifacts] after the loop. *)
Definition download_payload (targetPipelineId jobs : value)
    (jobsWithArtifacts : list value) (downloadedFiles : list string)
    (targetDownloadPath : string) (downloadResults : list value) : value :=
  VObj [("pipelineId", targetPipelineId);
        ("jobs", jobs);
        ("jobsWithArtifacts", VArr jobsWithArtifacts);
        ("downloadedFiles", VArr (map VStr downloadedFiles));
        ("downloadPath", VStr targetDownloadPath);
        ("downloadResults", VArr downloadResults)].

(** ** Reasoning about runs *)

(** [wp m Q log]: run from [log], [m] ends in a log and an outcome that
    satisfy [Q]. *)
Definition wp {A} (m : M A) (Q : Log -> Exn + A -> Prop) (log : Log) : Prop :=
  Q (fst (m log)) (snd (m log)).

(** The contract of the envelope: the operation returned (it did not
    throw), a failure has no payload, and a success without payload is
    the no-pipelines answer to an operation that asked for the latest
    pipeline. *)
Definition envelope_ok (URL : string -> option URLObject) (w : World)
    (op : Operation) (r : Exn + Envelope) : Prop :=
  exists env,
    r = inr env
    /\ (success env = false -> data env = VNull)
    /\ (success env = true -> data env = VNull ->
        message env = msg_no_pipelines
        /\ asks_latest op = true
        /\ exists info token,
             resolve_project URL w (operation_path op) = inr (info, token)
             /\ no_pipelines_listed w info token).

(** ** Example environments *)

Definition newline : string := String (ascii_of_nat 10) EmptyString.

(** A reply with status 200 whose body is read as JSON. *)
Definition reply_json (v : value) : FetchOutcome :=
  Fulfilled (mkResponse 200 (inl "body is not text") (inr v)
               (inl "body is not binary")).

(** A reply with status 200 whose body is read as text or as bytes. *)
Definition reply_text (s : string) : FetchOutcome :=
  Fulfilled (mkResponse 200 (inr s) (inl "Unexpected token in JSON")
               (inr s)).

(** A reply with the given status and an empty JSON object as body. *)
Definition reply_status (code : Z) : FetchOutcome :=
  Fulfilled (mkResponse code (inr "{}") (inr (VObj [])) (inr "{}")).

Definition example_job (id : Z) (name : string) : value :=
  VObj [("id", VNum id); ("name", VStr name);
        ("artifacts_file", VObj [("filename", VStr "artifacts.zip")])].

Definition example_jobs : list value :=
  [example_job 11 "build"; example_job 12 "unit tests";
   example_job 13 "deploy"].

Definition example_pipeline : value :=
  VObj [("id", VNum 7); ("status", VStr "failed"); ("ref", VStr "main")].

(** A checkout at [/repo] of [gitlab.com/group/project], with the replies
    of the backend listed by request number. *)
Definition example_world (token : option string)
    (replies : list FetchOutcome) : World :=
  mkWorld
    (fun path => String.eqb path "/repo/.git")
    (fun cwd => inr ("git@gitlab.com:group/project.git" ++ newline))
    token
    (fun n _ => nth n replies (Rejected "socket hang up"))
    (fun _ => None)
    (fun _ _ => None).

Definition example_info : GitLabInfo :=
  mkInfo "gitlab.com" "group" "project" "group%2Fproject".

(** Pipeline 7 with three jobs; the trace request of the second job is
    answered with HTTP 500. *)
Definition world_trace_http_error : World :=
  example_world (Some "glpat")
    [reply_json example_pipeline; reply_json (VArr example_jobs);
     reply_json (VArr []);
     reply_text "build ok"; reply_status 500; reply_text "deployed"].

(** Pipeline 7 with three jobs; the trace request of the second job is
    rejected. *)
Definition world_trace_rejected : World :=
  example_world (Some "glpat")
    [reply_json example_pipeline; reply_json (VArr example_jobs);
     reply_json (VArr []);
     reply_text "build ok"; Rejected "ECONNRESET"; reply_text "deployed"].

(** The job listing of pipeline 7 is rejected at the transport level. *)
Definition world_listing_rejected : World :=
  example_world (Some "glpat")
    [reply_json example_pipeline; Rejected "ECONNRESET";
     reply_json (VArr [])].

(** The job listing of pipeline 7 is answered with HTTP 503. *)
Definition world_listing_unavailable : World :=
  example_world (Some "glpat")
    [reply_json example_pipeline; reply_status 503; reply_json (VArr [])].

(** No pipelines: the reply to the list request is OK and its body is the
    empty array. *)
Definition world_no_pipelines : World :=
  example_world (Some "glpat") [reply_json (VArr [])].

Definition pipeline_7_jobs_url : string :=
  "https://gitlab.com/api/v4/projects/group%2Fproject/pipelines/7/jobs".

Definition pipeline_7_url : string :=
  "https://gitlab.com/api/v4/projects/group%2Fproject/pipelines/7".

(** The backend answers the job-listing request of pipeline 7 with HTTP
    500 whenever it is asked. *)
Definition world_jobs_unavailable : World :=
  mkWorld
    (fun path => String.eqb path "/repo/.git")
    (fun cwd => inr "https://gitlab.com/group/project.git")
    (Some "glpat")
    (fun n req =>
       if String.eqb (req_url req) pipeline_7_jobs_url then reply_status 500
       else if String.eqb (req_url req) pipeline_7_url
            then reply_json example_pipeline
            else reply_json (VArr []))
    (fun _ => None)
    (fun _ _ => None).

Definition example_job_without_artifacts : value :=
  VObj [("id", VNum 14); ("name", VStr "lint")].

(** Pipeline 7: three jobs with artifacts and one without; the archive of
    the second job is answered with HTTP 404. *)
Definition world_one_download_fails : World :=
  example_world (Some "glpat")
    [reply_json (VArr (example_jobs ++ [example_job_without_artifacts])%list);
     reply_text "PK-build"; reply_status 404; reply_text "PK-deploy"].

(* ===================================================================== *)
(** * Lemmas and theorems                                                 *)
(* ===================================================================== *)

(* ===================================================================== *)
(** * Strings                                                             *)
(* ===================================================================== *)

Section StringFacts.

Lemma append_assoc (a b c : string) : (a ++ b) ++ c = a ++ (b ++ c).
Proof. induction a as [|x a IH]; simpl; [reflexivity | now rewrite IH]. Qed.

Lemma length_append (a b : string) :
  String.length (a ++ b) = String.length a + String.length b.
Proof. induction a as [|x a IH]; simpl; [reflexivity | now rewrite IH]. Qed.

Lemma drop_prefix_app (p s : string) : drop_prefix p (p ++ s) = Some s.
Proof.
  induction p as [|a p IH]; simpl; [reflexivity |].
  now rewrite Ascii.eqb_refl.
Qed.

Lemma in_app_string (a : string) (sep : ascii) (p : string) :
  In sep (list_ascii_of_string (a ++ String sep p)).
Proof. induction a; simpl; auto. Qed.

Lemma eqb_dot_git_false (a : string) (sep : ascii) (p : string) :
  ~ In sep (list_ascii_of_string ".git") ->
  String.eqb (a ++ String sep p) ".git" = false.
Proof.
  intros Hsep. apply String.eqb_neq. intros E.
  apply Hsep. rewrite <- E. apply in_app_string.
Qed.

Lemma endsWith_after_sep (a : string) (sep : ascii) (p : string) :
  ~ In sep (list_ascii_of_string ".git") ->
  endsWith (a ++ String sep p) ".git" = endsWith p ".git".
Proof.
  intros Hsep. induction a as [|c a IH].
  - simpl append. change (endsWith (String sep p) ".git")
      with (String.eqb (String sep p) ".git" || endsWith p ".git").
    pose proof (eqb_dot_git_false EmptyString sep p Hsep) as E.
    simpl append in E. rewrite E. reflexivity.
  - change (endsWith (String c a ++ String sep p) ".git")
      with (String.eqb (String c a ++ String sep p) ".git"
            || endsWith (a ++ String sep p) ".git").
    pose proof (eqb_dot_git_false (String c a) sep p Hsep) as E.
    rewrite E. exact IH.
Qed.

Lemma strip_dot_git_keeps (s : string) :
  endsWith s ".git" = false -> strip_dot_git s = s.
Proof.
  induction s as [|c s IH]; intros H.
  - reflexivity.
  - change (endsWith (String c s) ".git")
      with (String.eqb (String c s) ".git" || endsWith s ".git") in H.
    apply orb_false_iff in H as [H1 H2].
    change (strip_dot_git (String c s))
      with (if String.eqb (String c s) ".git" then EmptyString
            else String c (strip_dot_git s)).
    rewrite H1, (IH H2). reflexivity.
Qed.

Lemma strip_dot_git_suffix (s : string) :
  nonempty s = true -> strip_dot_git (s ++ ".git") = s.
Proof.
  induction s as [|c s IH]; intros H; [discriminate |].
  change (strip_dot_git (String c s ++ ".git"))
    with (if String.eqb (String c (s ++ ".git")) ".git" then EmptyString
          else String c (strip_dot_git (s ++ ".git"))).
  assert (E : String.eqb (String c (s ++ ".git")) ".git" = false).
  { apply String.eqb_neq. intros E.
    apply (f_equal String.length) in E. simpl in E.
    rewrite length_append in E. simpl in E. lia. }
  rewrite E. destruct s as [|d s].
  - reflexivity.
  - now rewrite IH.
Qed.

Lemma span_run (f : ascii -> bool) (h : string) (sep : ascii)
    (rest : string) :
  all_chars f h = true -> f sep = false ->
  span f (h ++ String sep rest) = (h, String sep rest).
Proof.
  intros Hh Hsep. induction h as [|c h IH].
  - simpl. now rewrite Hsep.
  - unfold all_chars in Hh. simpl in Hh.
    apply andb_true_iff in Hh as [Hc Hh].
    simpl. rewrite Hc, (IH Hh). reflexivity.
Qed.

Lemma includes_nonempty (h sub : string) :
  nonempty sub = true -> includes h sub = true -> nonempty h = true.
Proof. destruct h, sub; simpl; intros; congruence. Qed.

End StringFacts.

(* ===================================================================== *)
(** * Remote identity resolver                                            *)
(* ===================================================================== *)

Section ResolverFacts.

Lemma host_char_not_colon (c : ascii) :
  is_host_char c = true -> Ascii.eqb c ":" = false.
Proof.
  intros H.
  destruct (Ascii.eqb_spec c ":") as [->|]; [discriminate H | reflexivity].
Qed.

Lemma break_colon_host (h rest : string) :
  host_chars h = true -> break_colon (h ++ String ":" rest) = Some (h, rest).
Proof.
  intros Hh. induction h as [|c h IH].
  - reflexivity.
  - unfold host_chars, all_chars in Hh. simpl in Hh.
    apply andb_true_iff in Hh as [Hc Hh].
    simpl. rewrite (host_char_not_colon c Hc), (IH Hh). reflexivity.
Qed.

Lemma host_pattern_match (pfx : string) (sep : ascii) (h rest : string) :
  host_chars h = true -> is_host_char sep = false ->
  host_pattern pfx sep (pfx ++ h ++ String sep rest) = includes h "gitlab".
Proof.
  intros Hh Hsep. unfold host_pattern.
  rewrite drop_prefix_app, (span_run _ h sep rest Hh Hsep).
  rewrite Ascii.eqb_refl. apply andb_true_r.
Qed.

Lemma gate_https (h p : string) :
  host_chars h = true ->
  matches_gitlab_patterns (https_form h p) = includes h "gitlab".
Proof.
  intros Hh. unfold matches_gitlab_patterns.
  change (https_form h p) with ("https://" ++ h ++ String "/" p).
  rewrite (host_pattern_match "https://" "/" h p Hh eq_refl).
  cbn. now rewrite !orb_false_r.
Qed.

Lemma gate_scp (h p : string) :
  host_chars h = true ->
  matches_gitlab_patterns (scp_form h p) = includes h "gitlab".
Proof.
  intros Hh. unfold matches_gitlab_patterns.
  change (scp_form h p) with ("git@" ++ h ++ String ":" p).
  rewrite (host_pattern_match "git@" ":" h p Hh eq_refl).
  cbn. now rewrite !orb_false_r.
Qed.

Lemma gate_ssh (h p : string) :
  host_chars h = true ->
  matches_gitlab_patterns (ssh_form h p) = includes h "gitlab".
Proof.
  intros Hh. unfold matches_gitlab_patterns.
  change (ssh_form h p) with ("ssh://git@" ++ h ++ String "/" p).
  rewrite (host_pattern_match "ssh://git@" "/" h p Hh eq_refl).
  cbn. reflexivity.
Qed.

Lemma ssh_to_https_https (h p : string) :
  ssh_to_https (https_form h p) = https_form h p.
Proof. reflexivity. Qed.

Lemma ssh_to_https_scp (h p : string) :
  host_chars h = true -> nonempty h = true ->
  ssh_to_https (scp_form h p) = https_form h p.
Proof.
  intros Hh Hne. unfold ssh_to_https.
  change (startsWith (scp_form h p) "git@") with true. cbv iota.
  unfold replace_git_at.
  change (drop_prefix "git@" (scp_form h p)) with (Some (h ++ String ":" p)).
  cbv beta iota.
  rewrite (break_colon_host h p Hh), Hne. reflexivity.
Qed.

Lemma ssh_to_https_ssh (h p : string) :
  ssh_to_https (ssh_form h p) = https_form h p.
Proof. reflexivity. Qed.

(** Each rendering survives the suffix strip, and loses an added [.git]. *)
Lemma form_no_suffix (pfx h : string) (sep : ascii) (p : string) :
  ~ In sep (list_ascii_of_string ".git") ->
  endsWith p ".git" = false ->
  strip_dot_git (pfx ++ h ++ String sep p) = pfx ++ h ++ String sep p.
Proof.
  intros Hsep Hp. apply strip_dot_git_keeps.
  rewrite <- append_assoc, endsWith_after_sep; assumption.
Qed.

Lemma form_with_suffix (pfx h : string) (sep : ascii) (p : string) :
  nonempty pfx = true ->
  strip_dot_git (pfx ++ h ++ String sep (p ++ ".git"))
  = pfx ++ h ++ String sep p.
Proof.
  intros Hpfx.
  replace (pfx ++ h ++ String sep (p ++ ".git"))
    with ((pfx ++ h ++ String sep p) ++ ".git").
  - apply strip_dot_git_suffix. now destruct pfx.
  - rewrite !append_assoc. reflexivity.
Qed.

Ltac sep_not_in_suffix :=
  let H := fresh in
  intros H; simpl in H;
  repeat (destruct H as [H|H]; [discriminate H |]); exact H.

Section Shapes.

Variable URL : string -> option URLObject.
Variables h p : string.
Hypothesis host_ok : host_chars h = true.
Hypothesis bare : endsWith p ".git" = false.

(** After the gate, what [parseGitLabUrl] does with the string it
    passes to the URL constructor. *)
Lemma resolveIdentity_unfold (url : string) :
  nonempty url = true ->
  resolveIdentity URL url =
  if matches_gitlab_patterns (strip_dot_git url)
  then parseGitLabUrl URL url else None.
Proof.
  intros Hne. unfold resolveIdentity, isGitLabRepository.
  now rewrite Hne.
Qed.

Lemma strip_https : strip_dot_git (https_form h p) = https_form h p.
Proof.
  apply (form_no_suffix "https://" h "/" p); [sep_not_in_suffix | exact bare].
Qed.

Lemma strip_https_git :
  strip_dot_git (https_form h p ++ ".git") = https_form h p.
Proof.
  unfold https_form. rewrite !append_assoc.
  apply (form_with_suffix "https://" h "/" p eq_refl).
Qed.

Lemma strip_scp : strip_dot_git (scp_form h p) = scp_form h p.
Proof.
  apply (form_no_suffix "git@" h ":" p); [sep_not_in_suffix | exact bare].
Qed.

Lemma strip_scp_git : strip_dot_git (scp_form h p ++ ".git") = scp_form h p.
Proof.
  unfold scp_form. rewrite !append_assoc.
  apply (form_with_suffix "git@" h ":" p eq_refl).
Qed.

Lemma strip_ssh : strip_dot_git (ssh_form h p) = ssh_form h p.
Proof.
  apply (form_no_suffix "ssh://git@" h "/" p); [sep_not_in_suffix | exact bare].
Qed.

Lemma strip_ssh_git : strip_dot_git (ssh_form h p ++ ".git") = ssh_form h p.
Proof.
  unfold ssh_form. rewrite !append_assoc.
  apply (form_with_suffix "ssh://git@" h "/" p eq_refl).
Qed.

(** Every rendering resolves as the plain HTTPS one does. *)
Lemma resolve_by_stripped (url n : string) :
  nonempty url = true ->
  strip_dot_git url = n ->
  matches_gitlab_patterns n = includes h "gitlab" ->
  (nonempty h = true -> ssh_to_https n = https_form h p) ->
  resolveIdentity URL url = resolveIdentity URL (https_form h p).
Proof.
  intros Hne Hstrip Hgate Hnorm.
  rewrite (resolveIdentity_unfold url Hne), Hstrip, Hgate.
  rewrite (resolveIdentity_unfold (https_form h p) eq_refl), strip_https.
  rewrite (gate_https h p host_ok).
  destruct (includes h "gitlab") eqn:Hinc; [| reflexivity].
  unfold parseGitLabUrl, normalize_remote.
  rewrite Hne, Hstrip, strip_https.
  rewrite (Hnorm (includes_nonempty h "gitlab" eq_refl Hinc)).
  reflexivity.
Qed.

End Shapes.

End ResolverFacts.

(** C2.  A project path [p] on a host [h] of host characters, written in
    any of the three accepted shapes, with or without a trailing [.git],
    resolves to the same identity (host, namespace, project name and
    encoded id) as its plain HTTPS form; [p] is the path itself, so it
    does not already end in [.git]. *)
Theorem resolveIdentity_shapes_agree
    (URL : string -> option URLObject) (h p : string) :
  host_chars h = true ->
  endsWith p ".git" = false ->
  let canonical := resolveIdentity URL (https_form h p) in
  resolveIdentity URL (https_form h p ++ ".git") = canonical
  /\ resolveIdentity URL (scp_form h p) = canonical
  /\ resolveIdentity URL (scp_form h p ++ ".git") = canonical
  /\ resolveIdentity URL (ssh_form h p) = canonical
  /\ resolveIdentity URL (ssh_form h p ++ ".git") = canonical.
Proof.
  intros Hh Hp canonical. subst canonical.
  repeat split.
  - apply (resolve_by_stripped URL h p Hh Hp
             (https_form h p ++ ".git") (https_form h p) eq_refl).
    + apply strip_https_git.
    + apply gate_https, Hh.
    + intros _. apply ssh_to_https_https.
  - apply (resolve_by_stripped URL h p Hh Hp
             (scp_form h p) (scp_form h p) eq_refl).
    + apply strip_scp, Hp.
    + apply gate_scp, Hh.
    + intros Hne. apply ssh_to_https_scp; assumption.
  - apply (resolve_by_stripped URL h p Hh Hp
             (scp_form h p ++ ".git") (scp_form h p) eq_refl).
    + apply strip_scp_git.
    + apply gate_scp, Hh.
    + intros Hne. apply ssh_to_https_scp; assumption.
  - apply (resolve_by_stripped URL h p Hh Hp
             (ssh_form h p) (ssh_form h p) eq_refl).
    + apply strip_ssh, Hp.
    + apply gate_ssh, Hh.
    + intros _. apply ssh_to_https_ssh.
  - apply (resolve_by_stripped URL h p Hh Hp
             (ssh_form h p ++ ".git") (ssh_form h p) eq_refl).
    + apply strip_ssh_git.
    + apply gate_ssh, Hh.
    + intros _. apply ssh_to_https_ssh.
Qed.

(** C2 at [gitlab.com] and [group/subgroup/project]. *)
Lemma resolveIdentity_shapes_agree_witness :
  host_chars "gitlab.com" = true
  /\ endsWith "group/subgroup/project" ".git" = false
  /\ resolveIdentity plainURL (https_form "gitlab.com" "group/subgroup/project")
     = Some (mkInfo "gitlab.com" "group/subgroup" "project"
               "group%2Fsubgroup%2Fproject")
  /\ resolveIdentity plainURL
       (ssh_form "gitlab.com" "group/subgroup/project" ++ ".git")
     = resolveIdentity plainURL
         (https_form "gitlab.com" "group/subgroup/project").
Proof.
  split; [reflexivity | split; [reflexivity | split; [reflexivity |]]].
  apply (resolveIdentity_shapes_agree plainURL "gitlab.com"
           "group/subgroup/project" eq_refl eq_refl).
Defined.

Section SegmentFacts.

Lemma join_last (sep : string) (parts : list string) :
  2 <= List.length parts ->
  join sep parts
  = join sep (removelast parts) ++ sep ++ last parts EmptyString.
Proof.
  induction parts as [|a rest IH]; intros Hlen; [simpl in Hlen; lia |].
  destruct rest as [|b rest]; [simpl in Hlen; lia |].
  destruct rest as [|c rest].
  - reflexivity.
  - change (join sep (a :: b :: c :: rest))
      with (a ++ sep ++ join sep (b :: c :: rest)).
    rewrite IH by (simpl; lia).
    change (removelast (a :: b :: c :: rest))
      with (a :: b :: removelast (c :: rest)).
    change (last (a :: b :: c :: rest) EmptyString)
      with (last (b :: c :: rest) EmptyString).
    change (removelast (b :: c :: rest)) with (b :: removelast (c :: rest)).
    change (join sep (a :: b :: removelast (c :: rest)))
      with (a ++ sep ++ join sep (b :: removelast (c :: rest))).
    rewrite !append_assoc. reflexivity.
Qed.

Lemma gate_nonempty (url : string) :
  isGitLabRepository url = true -> nonempty url = true.
Proof. unfold isGitLabRepository. now destruct (nonempty url). Qed.

End SegmentFacts.

(** C3.  For an accepted remote URL that the URL constructor parses:
    with [pathParts] the non-empty pieces of the path split on [/],
    resolution succeeds when there are at least two and fails when there
    are fewer; on success the project is the last piece, the namespace
    the pieces before it joined by [/] (nested groups are kept), the host
    the URL's host, and the encoded id the percent-encoding of
    namespace, [/] and project. *)
Theorem resolveIdentity_path_segments
    (URL : string -> option URLObject) (url : string) (urlObj : URLObject) :
  isGitLabRepository url = true ->
  URL (normalize_remote url) = Some urlObj ->
  let pathParts := filter nonempty (split "/" (url_pathname urlObj)) in
  (2 <= List.length pathParts ->
   exists info,
     resolveIdentity URL url = Some info
     /\ project info = last pathParts EmptyString
     /\ namespace info = join "/" (removelast pathParts)
     /\ projectId info
        = encodeURIComponent (namespace info ++ "/" ++ project info)
     /\ host info = url_host urlObj)
  /\ (List.length pathParts < 2 -> resolveIdentity URL url = None).
Proof.
  intros Hgate Hurl pathParts.
  unfold resolveIdentity, parseGitLabUrl. rewrite Hgate, Hurl.
  rewrite (gate_nonempty url Hgate). cbv beta iota. simpl negb. cbv iota.
  fold (path_parts urlObj). change (path_parts urlObj) with pathParts.
  split; intros Hlen.
  - apply Nat.leb_le in Hlen as Hleb. rewrite Hleb.
    eexists. split; [reflexivity |]. cbn [project namespace projectId host].
    repeat split. now rewrite <- join_last.
  - destruct (Nat.leb_spec 2 (List.length pathParts)) as [H|H];
      [lia | reflexivity].
Qed.

(** C3 at an SCP-style remote with a nested group. *)
Lemma resolveIdentity_path_segments_witness :
  isGitLabRepository "git@gitlab.com:group/subgroup/project.git" = true
  /\ plainURL (normalize_remote "git@gitlab.com:group/subgroup/project.git")
     = Some (mkURL "gitlab.com" "/group/subgroup/project")
  /\ ((2 <= 3 ->
       exists info,
         resolveIdentity plainURL "git@gitlab.com:group/subgroup/project.git"
         = Some info
         /\ project info = "project"
         /\ namespace info = "group/subgroup"
         /\ projectId info
            = encodeURIComponent (namespace info ++ "/" ++ project info)
         /\ host info = "gitlab.com")
      /\ (3 < 2 ->
          resolveIdentity plainURL "git@gitlab.com:group/subgroup/project.git"
          = None)).
Proof.
  split; [reflexivity | split; [reflexivity |]].
  exact (resolveIdentity_path_segments plainURL
           "git@gitlab.com:group/subgroup/project.git"
           (mkURL "gitlab.com" "/group/subgroup/project") eq_refl eq_refl).
Defined.

Example parse_nested_https :
  parseGitLabUrl plainURL "https://gitlab.com/group/subgroup/project.git"
  = Some (mkInfo "gitlab.com" "group/subgroup" "project"
            "group%2Fsubgroup%2Fproject").
Proof. reflexivity. Qed.

Example parse_one_segment :
  parseGitLabUrl plainURL "https://gitlab.com/project" = None.
Proof. reflexivity. Qed.

Example gate_rejects_other_host :
  isGitLabRepository "https://github.com/group/project.git" = false.
Proof. reflexivity. Qed.

Example gate_is_case_sensitive :
  isGitLabRepository "https://GitLab.com/group/project.git" = false.
Proof. reflexivity. Qed.

(* ===================================================================== *)
(** * Repository locator                                                  *)
(* ===================================================================== *)

Section PathFacts.

Lemma length_string_of_list (l : list ascii) :
  String.length (string_of_list_ascii l) = List.length l.
Proof. induction l; simpl; congruence. Qed.

Lemma length_list_of_string (s : string) :
  List.length (list_ascii_of_string s) = String.length s.
Proof. induction s; simpl; congruence. Qed.

Lemma skip_slashes_length (l : list ascii) :
  List.length (skip_slashes l) <= List.length l.
Proof.
  induction l as [|c l IH]; simpl; [lia |].
  destruct (is_slash c); simpl; lia.
Qed.

Lemma before_last_segment_length (l kept : list ascii) :
  before_last_segment l = Some kept -> List.length kept < List.length l.
Proof.
  revert kept. induction l as [|c l IH]; intros kept H; simpl in H.
  - discriminate.
  - destruct (is_slash c).
    + injection H as <-. simpl. lia.
    + apply IH in H. simpl. lia.
Qed.

(** After the trailing slashes a segment of at least one character is
    passed before the slash that ends the scan. *)
Lemma scan_length (l kept : list ascii) :
  before_last_segment (skip_slashes l) = Some kept ->
  List.length kept + 2 <= List.length l.
Proof.
  induction l as [|c l IH]; simpl; intros H; [discriminate |].
  destruct (is_slash c) eqn:Hc.
  - apply IH in H. lia.
  - simpl in H. rewrite Hc in H.
    apply before_last_segment_length in H. lia.
Qed.

(** A [dirname] step lands on a fixed point or on a shorter path. *)
Lemma dirname_descends (p : string) :
  dirname (dirname p) = dirname p
  \/ String.length (dirname p) < String.length p.
Proof.
  destruct p as [|c0 rest]; [left; reflexivity |].
  change (dirname (String c0 rest))
    with (match before_last_segment
                  (skip_slashes (rev (list_ascii_of_string rest))) with
          | None => if is_slash c0 then "/" else "."
          | Some kept =>
              if is_slash c0 && Nat.eqb (List.length kept) 0 then "//"
              else String c0 (string_of_list_ascii (rev kept))
          end).
  destruct (before_last_segment
              (skip_slashes (rev (list_ascii_of_string rest))))
    as [kept|] eqn:Hscan.
  - right. apply scan_length in Hscan.
    rewrite length_rev, length_list_of_string in Hscan.
    destruct (is_slash c0 && Nat.eqb (List.length kept) 0); simpl.
    + lia.
    + rewrite length_string_of_list, length_rev. lia.
  - left. destruct (is_slash c0); reflexivity.
Qed.

End PathFacts.

Section LocatorFacts.

Variable existsSync : string -> bool.

(** The loop always ends within [length startPath + 2] iterations. *)
Lemma findGitRepository_loop_terminates (fuel : nat) (p : string) :
  String.length p + 2 <= fuel ->
  findGitRepository_loop existsSync fuel p <> None.
Proof.
  revert p. induction fuel as [|fuel IH]; intros p Hfuel; [lia |].
  simpl. destruct (String.eqb p (dirname p)); [discriminate |].
  destruct (has_git_marker existsSync p); [discriminate |].
  destruct (dirname_descends p) as [Hfix | Hshort].
  - destruct fuel as [|fuel']; [lia |].
    simpl. rewrite Hfix, String.eqb_refl. discriminate.
  - apply IH. lia.
Qed.

(** What the loop returns is the first examined directory that holds the
    marker. *)
Lemma findGitRepository_loop_find (fuel : nat) (p : string)
    (r : option string) :
  findGitRepository_loop existsSync fuel p = Some r ->
  r = find (has_git_marker existsSync) (examined_dirs fuel p).
Proof.
  revert p. induction fuel as [|fuel IH]; intros p H; [discriminate |].
  simpl in *. destruct (String.eqb p (dirname p)).
  - now injection H as <-.
  - simpl. destruct (has_git_marker existsSync p).
    + now injection H as <-.
    + now apply IH.
Qed.

(** The locator returns the closest examined directory with the marker,
    and not-found when none of them has it. *)
Theorem findGitRepository_closest (startPath : string) :
  findGitRepository existsSync startPath
  = find (has_git_marker existsSync)
      (examined_dirs (locator_fuel startPath) startPath).
Proof.
  unfold findGitRepository.
  destruct (findGitRepository_loop existsSync (locator_fuel startPath)
              startPath) as [r|] eqn:H.
  - now apply findGitRepository_loop_find.
  - exfalso. revert H. apply findGitRepository_loop_terminates.
    unfold locator_fuel. lia.
Qed.

(** The directories looked into are all the [dirname] iterates but the
    last one, the fixed point where the loop stops. *)
Lemma examined_dirs_all_but_root (fuel : nat) (p : string) :
  String.length p + 2 <= fuel ->
  exists root,
    dirname root = root
    /\ ancestor_dirs fuel p = (examined_dirs fuel p ++ [root])%list
    /\ ~ In root (examined_dirs fuel p).
Proof.
  revert p. induction fuel as [|fuel IH]; intros p Hfuel; [lia |].
  simpl. destruct (String.eqb_spec p (dirname p)) as [E|N].
  - exists p. repeat split; auto.
  - destruct (dirname_descends p) as [Hfix | Hshort].
    + destruct fuel as [|fuel']; [lia |].
      exists (dirname p). simpl. rewrite Hfix, String.eqb_refl.
      repeat split; auto. simpl. intros [H|[]]. congruence.
    + destruct (IH (dirname p)) as (root & Hroot & Hall & Hnot); [lia |].
      exists root. rewrite Hall. repeat split; auto.
      simpl. intros [H|H]; [| now apply Hnot].
      subst root. now apply N.
Qed.

Lemma examined_not_fixed (fuel : nat) (p d : string) :
  In d (examined_dirs fuel p) -> dirname d <> d.
Proof.
  revert p. induction fuel as [|fuel IH]; intros p H; [contradiction |].
  simpl in H. destruct (String.eqb_spec p (dirname p)) as [E|N];
    [contradiction |].
  destruct H as [<-|H]; [congruence | exact (IH _ H)].
Qed.

(** The locator never returns a directory that is its own parent, the
    file-system root in particular, whatever the file system holds. *)
Theorem findGitRepository_never_root (startPath found : string) :
  findGitRepository existsSync startPath = Some found ->
  dirname found <> found.
Proof.
  rewrite findGitRepository_closest. intros H.
  apply find_some in H as [H _]. exact (examined_not_fixed _ _ _ H).
Qed.

End LocatorFacts.

Example dirname_steps :
  map dirname ["/srv/app"; "/srv"; "/"; "a/b"; "a"; "."; ""; "//srv"]
  = ["/srv"; "/"; "/"; "a"; "."; "."; "."; "//"].
Proof. reflexivity. Qed.

Example join_marker :
  map (fun d => join_paths [d; ".git"]) ["/srv/app"; "/"; "."; ""; "a/../b/"]
  = ["/srv/app/.git"; "/.git"; ".git"; ".git"; "b/.git"].
Proof. reflexivity. Qed.

Example locate_from_below :
  findGitRepository (fun path => String.eqb path "/srv/.git") "/srv/app/src"
  = Some "/srv".
Proof. reflexivity. Qed.

(** C4.  On a file system whose only marker is [/.git], the root is an
    ancestor of [/srv/app] and holds the marker, yet the locator answers
    not-found from [/srv/app] and from [/] itself: the loop stops at the
    directory that is its own parent before looking into it. *)
Theorem findGitRepository_skips_root :
  let existsSync := fun path => String.eqb path "/.git" in
  In "/" (ancestor_dirs (locator_fuel "/srv/app") "/srv/app")
  /\ has_git_marker existsSync "/" = true
  /\ findGitRepository existsSync "/srv/app" = None
  /\ findGitRepository existsSync "/" = None.
Proof. cbv zeta. repeat split; vm_compute; auto. Qed.

(* ===================================================================== *)
(** * Reasoning rules for runs                                            *)
(* ===================================================================== *)

Section WpRules.

Context {A B : Type}.

Lemma wp_ret (a : A) (Q : Log -> Exn + A -> Prop) (log : Log) :
  Q log (inr a) -> wp (ret a) Q log.
Proof. exact (fun H => H). Qed.

Lemma wp_throw (e : Exn) (Q : Log -> Exn + A -> Prop) (log : Log) :
  Q log (inl e) -> wp (throw e) Q log.
Proof. exact (fun H => H). Qed.

Lemma wp_lift (r : Exn + A) (Q : Log -> Exn + A -> Prop) (log : Log) :
  Q log r -> wp (lift r) Q log.
Proof. destruct r; exact (fun H => H). Qed.

Lemma wp_bind (m : M A) (f : A -> M B) (Q : Log -> Exn + B -> Prop)
    (log : Log) :
  wp m (fun log' r =>
          match r with
          | inl e => Q log' (inl e)
          | inr a => wp (f a) Q log'
          end) log ->
  wp (bind m f) Q log.
Proof.
  unfold wp, bind. destruct (m log) as [log' [e|a]]; exact (fun H => H).
Qed.

Lemma wp_try_catch (body : M A) (handler : Exn -> M A)
    (Q : Log -> Exn + A -> Prop) (log : Log) :
  wp body (fun log' r =>
             match r with
             | inl e => wp (handler e) Q log'
             | inr a => Q log' (inr a)
             end) log ->
  wp (try_catch body handler) Q log.
Proof.
  unfold wp, try_catch.
  destruct (body log) as [log' [e|a]]; exact (fun H => H).
Qed.

Lemma wp_known (m : M A) (Q : Log -> Exn + A -> Prop) (log log' : Log)
    (r : Exn + A) :
  m log = (log', r) -> Q log' r -> wp m Q log.
Proof. unfold wp. now intros ->. Qed.

Lemma wp_run (m : M A) (log : Log) (x : Log * (Exn + A)) :
  wp m (fun log' r => (log', r) = x) log -> m log = x.
Proof. unfold wp. now rewrite <- surjective_pairing. Qed.

Lemma wp_any (m : M A) (Q : Log -> Exn + A -> Prop) (log : Log) :
  (forall log' r, Q log' r) -> wp m Q log.
Proof. intros H. apply H. Qed.

End WpRules.

Section EffectRules.

Variable w : World.

Lemma wp_fetch (req : Request) (Q : Log -> Exn + Response -> Prop)
    (log : Log) :
  match fetch_reply w (fetch_count log) req with
  | Rejected e => Q (EFetch req :: log) (inl e)
  | Fulfilled r => Q (EFetch req :: log) (inr r)
  end ->
  wp (fetch w req) Q log.
Proof.
  unfold wp, fetch. simpl.
  destruct (fetch_reply w (fetch_count log) req); exact (fun H => H).
Qed.

Lemma wp_mkdirSync (path : string) (Q : Log -> Exn + unit -> Prop)
    (log : Log) :
  (forall r, Q (EMkdir path :: log) r) -> wp (mkdirSync w path) Q log.
Proof. intros H. apply H. Qed.

Lemma wp_writeFileSync (path content : string)
    (Q : Log -> Exn + unit -> Prop) (log : Log) :
  (forall r, Q (EWriteFile path content :: log) r) ->
  wp (writeFileSync w path content) Q log.
Proof. intros H. apply H. Qed.

Lemma wp_writeFileSync_exact (path content : string)
    (Q : Log -> Exn + unit -> Prop) (log : Log) :
  match writeFileSync_error w path content with
  | Some e => Q (EWriteFile path content :: log) (inl e)
  | None => Q (EWriteFile path content :: log) (inr tt)
  end ->
  wp (writeFileSync w path content) Q log.
Proof.
  unfold wp, writeFileSync. simpl.
  destruct (writeFileSync_error w path content); exact (fun H => H).
Qed.

End EffectRules.

Section FetchCount.

Lemma fetch_count_fetch (req : Request) (log : Log) :
  fetch_count (EFetch req :: log) = S (fetch_count log).
Proof. reflexivity. Qed.

Lemma fetch_count_mkdir (path : string) (log : Log) :
  fetch_count (EMkdir path :: log) = fetch_count log.
Proof. reflexivity. Qed.

Lemma fetch_count_write (path content : string) (log : Log) :
  fetch_count (EWriteFile path content :: log) = fetch_count log.
Proof. reflexivity. Qed.

Lemma fetch_count_nil : fetch_count [] = 0.
Proof. reflexivity. Qed.

End FetchCount.

Arguments fetch_count : simpl never.

(** Brings the request counter of a log to a numeral or to the counter
    of its oldest part. *)
Ltac count_fetches :=
  rewrite ?fetch_count_fetch, ?fetch_count_mkdir, ?fetch_count_write,
    ?fetch_count_nil.

Ltac use_hyp x :=
  match goal with
  | H : x = _ |- _ => rewrite H
  end.

(** A test that computes to a constant. *)
Ltac decide_test b :=
  let v := eval cbn in b in
  lazymatch v with
  | true => change b with true
  | false => change b with false
  end.

(** One step of symbolic execution of an operation under [wp]. *)
Ltac wp_basic :=
  cbv beta iota;
  lazymatch goal with
  | |- wp (bind _ _) _ _ => apply wp_bind
  | |- wp (ret _) _ _ => apply wp_ret
  | |- wp (throw _) _ _ => apply wp_throw
  | |- wp (lift _) _ _ => apply wp_lift
  | |- wp (try_catch _ _) _ _ => apply wp_try_catch
  | |- wp (failure _) _ _ => unfold failure
  | |- wp (text _) _ _ => unfold text
  | |- wp (json _) _ _ => unfold json
  | |- wp (buffer _) _ _ => unfold buffer
  | |- wp (throw_upstream _ _) _ _ => unfold throw_upstream
  | |- wp (fetch_job _ _ _ _) _ _ => unfold fetch_job
  | |- wp (resolve_pipeline_id _ _ _ _) _ _ => unfold resolve_pipeline_id
  | |- wp (prepare_download_dir _ _ _ _) _ _ => unfold prepare_download_dir
  end.

(** Case analysis on everything the environment decides; a loop is cut
    short to an arbitrary outcome. *)
Ltac wp_step :=
  cbv beta iota;
  lazymatch goal with
  | |- wp (fetch _ _) _ _ => apply wp_fetch; count_fetches
  | |- wp (mkdirSync _ _) _ _ => apply wp_mkdirSync; intros [?|[]]
  | |- wp (writeFileSync _ _ _) _ _ => apply wp_writeFileSync; intros [?|[]]
  | |- wp (promise_all _) _ _ => apply wp_any; intros ? [?|?]
  | |- wp (for_of _ _ _) _ _ => apply wp_any; intros ? [?|?]
  | |- wp (if ?b then _ else _) _ _ => destruct b eqn:?
  | |- wp (match ?x with _ => _ end) _ _ => destruct x eqn:?
  | |- match ?x with _ => _ end => destruct x eqn:?
  | |- _ => wp_basic
  end.

(** Symbolic execution along the path the hypotheses describe. *)
Ltac wp_follow :=
  cbv beta iota;
  lazymatch goal with
  | |- wp (fetch _ _) _ _ => apply wp_fetch; count_fetches
  | |- wp (if negb ?b then _ else _) _ _ =>
      first [use_hyp b; cbn [negb] | destruct b eqn:?; cbn [negb]]
  | |- wp (if ?b then _ else _) _ _ =>
      first [use_hyp b | decide_test b | destruct b eqn:?]
  | |- wp (match ?x with _ => _ end) _ _ =>
      first [use_hyp x | destruct x eqn:?]
  | |- match array_method _ _ (VArr _) with _ => _ end => cbn [array_method]
  | |- match ?x with _ => _ end => first [use_hyp x | destruct x eqn:?]
  | |- wp ?m _ ?log =>
      first [ match goal with
              | H : m log = _ |- _ => apply (wp_known _ _ _ _ _ H)
              end
            | wp_basic ]
  end.

(* ===================================================================== *)
(** * The envelope and the credential                                     *)
(* ===================================================================== *)

Section OperationFacts.

Variable URL : string -> option URLObject.
Variable w : World.

Lemma read_token_absent :
  credential_absent w = true -> read_token w = inl msg_missing_token.
Proof.
  unfold credential_absent, read_token.
  destruct (env_GITLAB_TOKEN w) as [t|]; [| reflexivity].
  now intros ->.
Qed.

Lemma resolve_project_absent (projectPath : string) :
  credential_absent w = true ->
  exists msg,
    resolve_project URL w projectPath = inl msg
    /\ (forall info, locate_and_resolve URL w projectPath = inr info ->
                     msg = msg_missing_token).
Proof.
  intros Habs. unfold resolve_project.
  destruct (locate_and_resolve URL w projectPath) as [e|info].
  - exists e. split; [reflexivity | discriminate].
  - rewrite (read_token_absent Habs). exists msg_missing_token. auto.
Qed.

(** An operation whose preamble throws does nothing else. *)
Lemma preamble_throws {A} (projectPath : string) (e : Exn)
    (k : GitLabInfo * string -> M A) (log : Log) :
  resolve_project URL w projectPath = inl e ->
  bind (lift (resolve_project URL w projectPath)) k log = (log, inl e).
Proof. intros H. unfold bind. now rewrite H. Qed.

Lemma perform_preamble_throws (op : Operation) (e : Exn) :
  resolve_project URL w (operation_path op) = inl e ->
  perform URL w op = ([], inr (mkEnvelope false e VNull)).
Proof.
  intros H. destruct op; simpl in H; simpl;
    unfold getLatestPipeline, getLatestPipeline_body,
      getPipelineDetails, getPipelineDetails_body,
      getJobDetails, getJobDetails_body, getJobLogs, getJobLogs_body,
      getJobArtifacts, getJobArtifacts_body,
      downloadJobArtifacts, downloadJobArtifacts_body,
      downloadPipelineArtifacts, downloadPipelineArtifacts_body,
      try_catch;
    rewrite (preamble_throws _ e _ _ H); reflexivity.
Qed.

End OperationFacts.

(** C9.  When the token is absent from the environment (unset or
    empty), every operation ends in a failure envelope with no effect
    logged, so no backend request was issued; when the run got as far as
    the credential check (repository located, identity resolved) the
    message is the missing-credential one. *)
Theorem missing_credential_no_request
    (URL : string -> option URLObject) (w : World) (op : Operation) :
  credential_absent w = true ->
  exists msg,
    perform URL w op = ([], inr (mkEnvelope false msg VNull))
    /\ requests (fst (perform URL w op)) = []
    /\ (forall info,
          locate_and_resolve URL w (operation_path op) = inr info ->
          msg = msg_missing_token).
Proof.
  intros Habs.
  destruct (resolve_project_absent URL w (operation_path op) Habs)
    as (msg & Hmsg & Hreached).
  exists msg. rewrite (perform_preamble_throws URL w op msg Hmsg).
  repeat split; auto.
Qed.

(** C9 at a checkout with no token, for [getPipelineDetails]. *)
Lemma missing_credential_no_request_witness :
  credential_absent (example_world None []) = true
  /\ locate_and_resolve plainURL (example_world None []) "/repo/src"
     = inr example_info
  /\ exists msg,
       perform plainURL (example_world None [])
         (GetPipelineDetails "/repo/src" VUndefined)
       = ([], inr (mkEnvelope false msg VNull))
       /\ requests
            (fst (perform plainURL (example_world None [])
                    (GetPipelineDetails "/repo/src" VUndefined))) = []
       /\ (forall info,
             locate_and_resolve plainURL (example_world None [])
               (operation_path (GetPipelineDetails "/repo/src" VUndefined))
             = inr info ->
             msg = msg_missing_token).
Proof.
  split; [reflexivity | split; [reflexivity |]].
  exact (missing_credential_no_request plainURL (example_world None [])
           (GetPipelineDetails "/repo/src" VUndefined) eq_refl).
Defined.

Ltac unfold_operation :=
  unfold perform, getLatestPipeline, getLatestPipeline_body,
    getPipelineDetails, getPipelineDetails_body,
    getJobDetails, getJobDetails_body, getJobLogs, getJobLogs_body,
    getJobArtifacts, getJobArtifacts_body,
    downloadJobArtifacts, downloadJobArtifacts_body,
    downloadPipelineArtifacts, downloadPipelineArtifacts_body.

(** Closes a leaf of the case analysis: a failure envelope, an envelope
    with a payload, or the no-pipelines envelope. *)
Ltac close_no_pipelines :=
  split; [reflexivity |];
  split; [cbn [asks_latest]; try reflexivity; assumption |];
  do 2 eexists; split; [eassumption |];
  do 2 eexists;
  split; [eassumption |];
  split; [apply negb_false_iff; eassumption |];
  split; eassumption.

Ltac close_envelope :=
  eexists; split; [reflexivity |]; cbn [success data message];
  split;
  [ intros; first [reflexivity | discriminate]
  | intros Hs Hd;
    first [discriminate Hs | discriminate Hd | close_no_pipelines] ].

Lemma perform_envelope_ok
    (URL : string -> option URLObject) (w : World) (op : Operation) :
  envelope_ok URL w op (snd (perform URL w op)).
Proof.
  destruct op; unfold perform;
    match goal with
    | |- envelope_ok ?U ?W ?o (snd (?m [])) =>
        change (wp m (fun _ r => envelope_ok U W o r) [])
    end;
    unfold_operation; repeat wp_step; close_envelope.
Qed.

(** C8.  Every operation, on every input and in every environment,
    returns an envelope and throws nothing; a failure envelope has no
    payload; a success envelope without payload is the no-pipelines one:
    the operation asked for the latest pipeline and the backend's list
    reply was OK and empty. *)
Theorem operations_return_envelope
    (URL : string -> option URLObject) (w : World) (op : Operation) :
  exists envelope,
    snd (perform URL w op) = inr envelope
    /\ (success envelope = false -> data envelope = VNull)
    /\ (success envelope = true -> data envelope = VNull ->
        message envelope = msg_no_pipelines
        /\ asks_latest op = true
        /\ exists gitlabInfo gitlabToken,
             resolve_project URL w (operation_path op)
             = inr (gitlabInfo, gitlabToken)
             /\ no_pipelines_listed w gitlabInfo gitlabToken).
Proof. exact (perform_envelope_ok URL w op). Qed.

(** C8 at [getLatestPipeline] on a project without pipelines. *)
Lemma operations_return_envelope_witness :
  exists envelope,
    snd (perform plainURL world_no_pipelines (GetLatestPipeline "/repo"))
    = inr envelope
    /\ (success envelope = false -> data envelope = VNull)
    /\ (success envelope = true -> data envelope = VNull ->
        message envelope = msg_no_pipelines
        /\ asks_latest (GetLatestPipeline "/repo") = true
        /\ exists gitlabInfo gitlabToken,
             resolve_project plainURL world_no_pipelines
               (operation_path (GetLatestPipeline "/repo"))
             = inr (gitlabInfo, gitlabToken)
             /\ no_pipelines_listed world_no_pipelines gitlabInfo
                  gitlabToken).
Proof.
  exact (operations_return_envelope plainURL world_no_pipelines
           (GetLatestPipeline "/repo")).
Defined.

(* ===================================================================== *)
(** * Pipeline aggregation                                                *)
(* ===================================================================== *)

Section TraceFanOut.

Variable w : World.
Variable gitlabInfo : GitLabInfo.
Variable gitlabToken : string.

Lemma get_prop_not_nullish (v : value) (k : string) :
  is_nullish v = false -> exists x, get_prop v k = inr x.
Proof. destruct v; simpl; intros H; try discriminate H; eauto. Qed.

Lemma get_prop_id (job : value) :
  is_nullish job = false -> get_prop job "id" = inr (job_id job).
Proof.
  intros H. unfold job_id, field.
  destruct (get_prop_not_nullish job "id" H) as [x ->]. reflexivity.
Qed.

(** The callback of one job never rejects, whatever its trace request
    does, and issues this request only. *)
Lemma fetch_job_trace_run (job : value) (log : Log) :
  is_nullish job = false ->
  fetch_job_trace w gitlabInfo gitlabToken job log
  = (EFetch (job_trace_request gitlabInfo gitlabToken (job_id job)) :: log,
     inr (with_trace w gitlabInfo gitlabToken (fetch_count log) job)).
Proof.
  intros Hjob. apply wp_run. unfold fetch_job_trace.
  pose proof (get_prop_id job Hjob) as Hid.
  unfold with_trace, trace_reply, trace_of.
  repeat wp_follow; reflexivity.
Qed.

Lemma promise_all_traces (jobs : list value) (log : Log) :
  forallb (fun job => negb (is_nullish job)) jobs = true ->
  promise_all (map (fetch_job_trace w gitlabInfo gitlabToken) jobs) log
  = ((trace_events gitlabInfo gitlabToken jobs ++ log)%list,
     inr (with_traces w gitlabInfo gitlabToken (fetch_count log) jobs)).
Proof.
  revert log. induction jobs as [|job rest IH]; intros log Hjobs.
  - reflexivity.
  - simpl in Hjobs. apply andb_true_iff in Hjobs as [Hjob Hrest].
    apply negb_true_iff in Hjob.
    cbn [map promise_all].
    rewrite (fetch_job_trace_run job log Hjob), (IH _ Hrest).
    rewrite fetch_count_fetch. unfold trace_events. cbn [map rev with_traces].
    rewrite <- app_assoc. reflexivity.
Qed.

End TraceFanOut.

Section Aggregation.

Variable URL : string -> option URLObject.
Variable w : World.

Lemma pick_not_nullish (v : value) (keys : list string) :
  is_nullish v = false -> pick v keys = inr (pick_fields v keys).
Proof.
  intros Hv. unfold pick, pick_fields, field.
  induction keys as [|k keys IH]; [reflexivity |].
  cbn [map_throwing map].
  destruct (get_prop_not_nullish v k Hv) as [x ->]. now rewrite IH.
Qed.

Lemma listing_answer_inv (o : FetchOutcome) (v : value) :
  listing_answer o = Some v ->
  exists r, o = Fulfilled r
            /\ ((ok r = true /\ json_body r = inr v)
                \/ (ok r = false /\ v = VArr [])).
Proof.
  unfold listing_answer. destruct o as [e|r]; [discriminate |].
  destruct (ok r) eqn:Hok.
  - destruct (json_body r) as [e|v'] eqn:Hjson; [discriminate |].
    intros [= ->]. exists r. split; [reflexivity | left; auto].
  - intros [= <-]. exists r. split; [reflexivity | right; auto].
Qed.

Variables (projectPath : string) (pipelineId : value).
Variables (gitlabInfo : GitLabInfo) (gitlabToken : string).
Variables (log0 : Log) (targetPipelineId : value).

Hypothesis resolved :
  resolve_project URL w projectPath = inr (gitlabInfo, gitlabToken).
Hypothesis targeted :
  resolve_pipeline_id w gitlabInfo gitlabToken (default_null pipelineId) []
  = (log0, inr (inr targetPipelineId)).

(** The run of [getPipelineDetails] when the pipeline is fetched and
    the two listing calls are answered. *)
Lemma getPipelineDetails_run (pipeline artifacts : value)
    (jobs : list value) :
  pipeline_fetched w gitlabInfo gitlabToken (fetch_count log0)
    targetPipelineId pipeline ->
  listing_answer
    (fetch_reply w (S (fetch_count log0))
       (pipeline_jobs_request gitlabInfo gitlabToken targetPipelineId))
  = Some (VArr jobs) ->
  forallb (fun job => negb (is_nullish job)) jobs = true ->
  listing_answer
    (fetch_reply w (S (S (fetch_count log0)))
       (pipeline_artifacts_request gitlabInfo gitlabToken targetPipelineId))
  = Some artifacts ->
  getPipelineDetails URL w projectPath pipelineId []
  = ((trace_events gitlabInfo gitlabToken jobs
      ++ EFetch (pipeline_artifacts_request gitlabInfo gitlabToken
                   targetPipelineId)
      :: EFetch (pipeline_jobs_request gitlabInfo gitlabToken
                   targetPipelineId)
      :: EFetch (pipeline_request gitlabInfo gitlabToken targetPipelineId)
      :: log0)%list,
     inr (mkEnvelope true
            "Подробная информация о пайплайне получена успешно"
            (details_payload gitlabInfo pipeline
               (with_traces w gitlabInfo gitlabToken
                  (3 + fetch_count log0) jobs)
               artifacts))).
Proof.
  intros (rp & Hrp & Hokp & Hjsonp & Hpipe) Hjobs Hnonnull Hartifacts.
  apply listing_answer_inv in Hjobs as (rj & Hrj & Hj).
  apply listing_answer_inv in Hartifacts as (ra & Hra & Ha).
  pose proof (pick_not_nullish pipeline pipeline_keys Hpipe) as Hpick.
  apply wp_run. unfold getPipelineDetails, getPipelineDetails_body.
  destruct Hj as [[Hokj Hjsonj] | [Hokj Hempty]];
    destruct Ha as [[Hoka Hjsona] | [Hoka ->]];
    try (injection Hempty as <-);
    repeat wp_follow;
    (eapply wp_known;
     [ apply promise_all_traces; assumption
     | count_fetches; repeat wp_follow; reflexivity ]).
Qed.

End Aggregation.

(** C1 (counterexample).  A trace request answered with HTTP 500 has
    failed, and the job gets the empty string as its trace, not a
    diagnostic. *)
Lemma trace_http_error_left_empty :
  let run := getPipelineDetails plainURL world_trace_http_error "/repo"
               (VNum 7) [] in
  call_failed
    (trace_reply world_trace_http_error example_info "glpat" 4
       (example_job 12 "unit tests")) = true
  /\ exists envelope,
       snd run = inr envelope
       /\ success envelope = true
       /\ field (nth_job 1 envelope) "id" = VNum 12
       /\ field (nth_job 1 envelope) "trace" = VStr EmptyString
       /\ is_diagnostic (field (nth_job 1 envelope) "trace") = false.
Proof.
  cbv zeta. split; [reflexivity |].
  eexists. split; [vm_compute; reflexivity |].
  repeat split.
Qed.

(** C7 (counterexample).  With the pipeline fetched, a job-listing
    request that is rejected makes the whole operation fail. *)
Lemma listing_transport_error_aborts :
  let run := getPipelineDetails plainURL world_listing_rejected "/repo"
               (VNum 7) [] in
  pipeline_fetched world_listing_rejected example_info "glpat" 0 (VNum 7)
    example_pipeline
  /\ call_failed
       (fetch_reply world_listing_rejected 1
          (pipeline_jobs_request example_info "glpat" (VNum 7))) = true
  /\ snd run = inr (mkEnvelope false "ECONNRESET" VNull).
Proof.
  cbv zeta. split; [| split; [reflexivity | vm_compute; reflexivity]].
  eexists. repeat split.
Qed.

Section PayloadFacts.

Lemma lookup_set_field (k : string) (v : value)
    (fields : list (string * value)) :
  lookup k (set_field k v fields) = v.
Proof.
  induction fields as [|[k' v'] rest IH]; simpl.
  - now rewrite String.eqb_refl.
  - destruct (String.eqb k k') eqn:E; simpl;
      rewrite ?E, ?String.eqb_refl; auto.
Qed.

Variable w : World.
Variable gitlabInfo : GitLabInfo.
Variable gitlabToken : string.

Lemma with_trace_trace (n : nat) (job : value) :
  field (with_trace w gitlabInfo gitlabToken n job) "trace"
  = VStr (trace_of (trace_reply w gitlabInfo gitlabToken n job)).
Proof. unfold with_trace, field. simpl. apply lookup_set_field. Qed.

Lemma with_traces_nth (jobs : list value) (n i : nat) (job : value) :
  nth_error jobs i = Some job ->
  nth i (with_traces w gitlabInfo gitlabToken n jobs) VUndefined
  = with_trace w gitlabInfo gitlabToken (n + i) job.
Proof.
  revert n i. induction jobs as [|j rest IH]; intros n i H.
  - now destruct i.
  - destruct i as [|i]; simpl in *.
    + injection H as ->. now rewrite Nat.add_0_r.
    + rewrite (IH (S n) i H). f_equal. lia.
Qed.

Lemma with_traces_length (jobs : list value) (n : nat) :
  List.length (with_traces w gitlabInfo gitlabToken n jobs)
  = List.length jobs.
Proof. revert n. induction jobs; intros n; simpl; auto. Qed.

(** How a trace reads off the answer to the job's own request. *)
Lemma trace_of_cases (reply : FetchOutcome) :
  (forall e, reply = Rejected e ->
             trace_of reply = trace_error_prefix ++ e)
  /\ (forall r e, reply = Fulfilled r -> ok r = true ->
                  text_body r = inl e ->
                  trace_of reply = trace_error_prefix ++ e)
  /\ (forall r, reply = Fulfilled r -> ok r = false ->
                trace_of reply = EmptyString)
  /\ (forall r t, reply = Fulfilled r -> ok r = true ->
                  text_body r = inr t -> trace_of reply = t).
Proof.
  repeat split; intros; subst reply; unfold trace_of;
    repeat match goal with H : _ = _ |- _ => rewrite H end; reflexivity.
Qed.

End PayloadFacts.

(** C1 (amended).  When the pipeline is fetched and its job listing is
    an array of jobs none of which is [null], [getPipelineDetails]
    succeeds whatever the trace requests do, and the trace of each job is
    a function of the answer to its own request: the diagnostic
    placeholder with the error message when the request is rejected or
    its body cannot be read, the empty string when the status is not OK,
    the response text otherwise. *)
Theorem trace_fetch_fault_isolated
    (URL : string -> option URLObject) (w : World)
    (projectPath : string) (pipelineId : value)
    (gitlabInfo : GitLabInfo) (gitlabToken : string)
    (log0 : Log) (targetPipelineId pipeline artifacts : value)
    (jobs : list value) :
  resolve_project URL w projectPath = inr (gitlabInfo, gitlabToken) ->
  resolve_pipeline_id w gitlabInfo gitlabToken (default_null pipelineId) []
  = (log0, inr (inr targetPipelineId)) ->
  pipeline_fetched w gitlabInfo gitlabToken (fetch_count log0)
    targetPipelineId pipeline ->
  listing_answer
    (fetch_reply w (S (fetch_count log0))
       (pipeline_jobs_request gitlabInfo gitlabToken targetPipelineId))
  = Some (VArr jobs) ->
  forallb (fun job => negb (is_nullish job)) jobs = true ->
  listing_answer
    (fetch_reply w (S (S (fetch_count log0)))
       (pipeline_artifacts_request gitlabInfo gitlabToken targetPipelineId))
  = Some artifacts ->
  exists envelope,
    snd (getPipelineDetails URL w projectPath pipelineId []) = inr envelope
    /\ success envelope = true
    /\ forall i job,
         nth_error jobs i = Some job ->
         let reply :=
           trace_reply w gitlabInfo gitlabToken (3 + fetch_count log0 + i)
             job in
         let trace := field (nth_job i envelope) "trace" in
         trace = VStr (trace_of reply)
         /\ (forall e, reply = Rejected e ->
                       trace = VStr (trace_error_prefix ++ e))
         /\ (forall r e, reply = Fulfilled r -> ok r = true ->
                         text_body r = inl e ->
                         trace = VStr (trace_error_prefix ++ e))
         /\ (forall r, reply = Fulfilled r -> ok r = false ->
                       trace = VStr EmptyString)
         /\ (forall r t, reply = Fulfilled r -> ok r = true ->
                         text_body r = inr t -> trace = VStr t).
Proof.
  intros H1 H2 H3 H4 H5 H6.
  rewrite (getPipelineDetails_run URL w projectPath pipelineId gitlabInfo
             gitlabToken log0 targetPipelineId H1 H2 pipeline artifacts jobs
             H3 H4 H5 H6).
  eexists. split; [reflexivity |]. split; [reflexivity |].
  intros i job Hi reply trace.
  assert (Htrace : trace = VStr (trace_of reply)).
  { subst trace reply. unfold nth_job.
    cbn [data details_payload field get_prop lookup String.eqb Ascii.eqb
           Bool.eqb].
    rewrite (with_traces_nth w gitlabInfo gitlabToken jobs _ i job Hi).
    apply with_trace_trace. }
  destruct (trace_of_cases reply) as (Ha & Hb & Hc & Hd).
  rewrite Htrace. repeat split; intros; f_equal; eauto.
Qed.

(** C1 (amended) at a pipeline of three jobs whose second trace request
    is rejected. *)
Lemma trace_fetch_fault_isolated_witness :
  resolve_project plainURL world_trace_rejected "/repo"
  = inr (example_info, "glpat")
  /\ resolve_pipeline_id world_trace_rejected example_info "glpat"
       (default_null (VNum 7)) []
     = ([], inr (inr (VNum 7)))
  /\ pipeline_fetched world_trace_rejected example_info "glpat"
       (fetch_count []) (VNum 7) example_pipeline
  /\ listing_answer
       (fetch_reply world_trace_rejected (S (fetch_count []))
          (pipeline_jobs_request example_info "glpat" (VNum 7)))
     = Some (VArr example_jobs)
  /\ forallb (fun job => negb (is_nullish job)) example_jobs = true
  /\ listing_answer
       (fetch_reply world_trace_rejected (S (S (fetch_count [])))
          (pipeline_artifacts_request example_info "glpat" (VNum 7)))
     = Some (VArr [])
  /\ exists envelope,
       snd (getPipelineDetails plainURL world_trace_rejected "/repo"
              (VNum 7) []) = inr envelope
       /\ success envelope = true
       /\ forall i job,
            nth_error example_jobs i = Some job ->
            let reply :=
              trace_reply world_trace_rejected example_info "glpat"
                (3 + fetch_count [] + i) job in
            let trace := field (nth_job i envelope) "trace" in
            trace = VStr (trace_of reply)
            /\ (forall e, reply = Rejected e ->
                          trace = VStr (trace_error_prefix ++ e))
            /\ (forall r e, reply = Fulfilled r -> ok r = true ->
                            text_body r = inl e ->
                            trace = VStr (trace_error_prefix ++ e))
            /\ (forall r, reply = Fulfilled r -> ok r = false ->
                          trace = VStr EmptyString)
            /\ (forall r t, reply = Fulfilled r -> ok r = true ->
                            text_body r = inr t -> trace = VStr t).
Proof.
  assert (Hp : pipeline_fetched world_trace_rejected example_info "glpat"
                 (fetch_count []) (VNum 7) example_pipeline).
  { eexists. repeat split. }
  repeat (split; [first [reflexivity | exact Hp] |]).
  exact (trace_fetch_fault_isolated plainURL world_trace_rejected "/repo"
           (VNum 7) example_info "glpat" [] (VNum 7) example_pipeline
           (VArr []) example_jobs eq_refl eq_refl Hp eq_refl eq_refl eq_refl).
Defined.

Example rejected_trace_is_diagnosed :
  exists envelope,
    snd (getPipelineDetails plainURL world_trace_rejected "/repo"
           (VNum 7) []) = inr envelope
    /\ success envelope = true
    /\ map (fun i => field (nth_job i envelope) "trace") [0; 1; 2]
       = [VStr "build ok";
          VStr "Ошибка при получении логов: ECONNRESET";
          VStr "deployed"].
Proof. eexists. split; [vm_compute; reflexivity |]. split; reflexivity. Qed.

Section ListingFacts.

Variable URL : string -> option URLObject.
Variable w : World.
Variables (projectPath : string) (pipelineId : value).
Variables (gitlabInfo : GitLabInfo) (gitlabToken : string).
Variables (log0 : Log) (targetPipelineId pipeline : value).

Hypothesis resolved :
  resolve_project URL w projectPath = inr (gitlabInfo, gitlabToken).
Hypothesis targeted :
  resolve_pipeline_id w gitlabInfo gitlabToken (default_null pipelineId) []
  = (log0, inr (inr targetPipelineId)).
Hypothesis fetched :
  pipeline_fetched w gitlabInfo gitlabToken (fetch_count log0)
    targetPipelineId pipeline.

(** A rejected job listing ends the operation. *)
Lemma jobs_rejected_aborts (e : Exn) :
  fetch_reply w (S (fetch_count log0))
    (pipeline_jobs_request gitlabInfo gitlabToken targetPipelineId)
  = Rejected e ->
  snd (getPipelineDetails URL w projectPath pipelineId [])
  = inr (mkEnvelope false e VNull).
Proof.
  intros Hj.
  destruct fetched as (rp & Hrp & Hokp & Hjsonp & Hpipe).
  change (wp (getPipelineDetails URL w projectPath pipelineId)
            (fun _ r => r = inr (mkEnvelope false e VNull)) []).
  unfold getPipelineDetails, getPipelineDetails_body.
  repeat wp_follow; reflexivity.
Qed.

(** So does a rejected artifact listing. *)
Lemma artifacts_rejected_aborts (jobs : value) (e : Exn) :
  listing_answer
    (fetch_reply w (S (fetch_count log0))
       (pipeline_jobs_request gitlabInfo gitlabToken targetPipelineId))
  = Some jobs ->
  fetch_reply w (S (S (fetch_count log0)))
    (pipeline_artifacts_request gitlabInfo gitlabToken targetPipelineId)
  = Rejected e ->
  snd (getPipelineDetails URL w projectPath pipelineId [])
  = inr (mkEnvelope false e VNull).
Proof.
  intros Hj Ha.
  apply listing_answer_inv in Hj as (rj & Hrj & Hj).
  destruct fetched as (rp & Hrp & Hokp & Hjsonp & Hpipe).
  change (wp (getPipelineDetails URL w projectPath pipelineId)
            (fun _ r => r = inr (mkEnvelope false e VNull)) []).
  unfold getPipelineDetails, getPipelineDetails_body.
  destruct Hj as [[Hokj Hjsonj] | [Hokj Hempty]];
    repeat wp_follow; reflexivity.
Qed.

Lemma listing_answer_failed (o : FetchOutcome) (v : value) :
  listing_answer o = Some v -> call_failed o = true -> v = VArr [].
Proof.
  intros H Hf. apply listing_answer_inv in H as (r & -> & [[Hok _]|[_ ->]]).
  - simpl in Hf. rewrite Hok in Hf. discriminate.
  - reflexivity.
Qed.

End ListingFacts.

(** C7 (amended).  With the pipeline fetched: when the job-listing and
    artifact-metadata calls are answered, [getPipelineDetails] succeeds
    with the composed payload, and a call answered with a non-OK status
    contributes the empty list; when one of the two calls is rejected the
    operation returns a failure envelope with the rejection's message. *)
Theorem listing_http_error_tolerated
    (URL : string -> option URLObject) (w : World)
    (projectPath : string) (pipelineId : value)
    (gitlabInfo : GitLabInfo) (gitlabToken : string)
    (log0 : Log) (targetPipelineId pipeline : value) :
  resolve_project URL w projectPath = inr (gitlabInfo, gitlabToken) ->
  resolve_pipeline_id w gitlabInfo gitlabToken (default_null pipelineId) []
  = (log0, inr (inr targetPipelineId)) ->
  pipeline_fetched w gitlabInfo gitlabToken (fetch_count log0)
    targetPipelineId pipeline ->
  let jobs_reply :=
    fetch_reply w (S (fetch_count log0))
      (pipeline_jobs_request gitlabInfo gitlabToken targetPipelineId) in
  let artifacts_reply :=
    fetch_reply w (S (S (fetch_count log0)))
      (pipeline_artifacts_request gitlabInfo gitlabToken targetPipelineId) in
  let result := snd (getPipelineDetails URL w projectPath pipelineId []) in
  (forall jobs artifacts,
     listing_answer jobs_reply = Some (VArr jobs) ->
     forallb (fun job => negb (is_nullish job)) jobs = true ->
     listing_answer artifacts_reply = Some artifacts ->
     exists envelope,
       result = inr envelope
       /\ success envelope = true
       /\ data envelope
          = details_payload gitlabInfo pipeline
              (with_traces w gitlabInfo gitlabToken
                 (3 + fetch_count log0) jobs) artifacts
       /\ (call_failed jobs_reply = true ->
           field (data envelope) "jobs" = VArr [])
       /\ (call_failed artifacts_reply = true ->
           field (data envelope) "artifacts" = VArr []))
  /\ (forall e, jobs_reply = Rejected e ->
                result = inr (mkEnvelope false e VNull))
  /\ (forall jobs e,
        listing_answer jobs_reply = Some jobs ->
        artifacts_reply = Rejected e ->
        result = inr (mkEnvelope false e VNull)).
Proof.
  intros H1 H2 H3 jobs_reply artifacts_reply result.
  split; [| split].
  - intros jobs artifacts Hj Hnn Ha. subst result.
    rewrite (getPipelineDetails_run URL w projectPath pipelineId gitlabInfo
               gitlabToken log0 targetPipelineId H1 H2 pipeline artifacts jobs
               H3 Hj Hnn Ha).
    eexists. split; [reflexivity |]. split; [reflexivity |].
    split; [reflexivity |]. split; intros Hf.
    + apply (listing_answer_failed _ _ Hj) in Hf. injection Hf as ->.
      reflexivity.
    + apply (listing_answer_failed _ _ Ha) in Hf. subst artifacts.
      reflexivity.
  - intros e.
    apply jobs_rejected_aborts with (pipeline := pipeline); assumption.
  - intros jobs e.
    apply artifacts_rejected_aborts with (pipeline := pipeline); assumption.
Qed.

(** C7 (amended) at a job listing answered with HTTP 503. *)
Lemma listing_http_error_tolerated_witness :
  resolve_project plainURL world_listing_unavailable "/repo"
  = inr (example_info, "glpat")
  /\ resolve_pipeline_id world_listing_unavailable example_info "glpat"
       (default_null (VNum 7)) []
     = ([], inr (inr (VNum 7)))
  /\ pipeline_fetched world_listing_unavailable example_info "glpat"
       (fetch_count []) (VNum 7) example_pipeline
  /\ call_failed
       (fetch_reply world_listing_unavailable 1
          (pipeline_jobs_request example_info "glpat" (VNum 7))) = true
  /\ exists envelope,
       snd (getPipelineDetails plainURL world_listing_unavailable "/repo"
              (VNum 7) []) = inr envelope
       /\ success envelope = true
       /\ field (data envelope) "jobs" = VArr [].
Proof.
  assert (Hp : pipeline_fetched world_listing_unavailable example_info "glpat"
                 (fetch_count []) (VNum 7) example_pipeline).
  { eexists. repeat split. }
  repeat (split; [first [reflexivity | exact Hp] |]).
  destruct (listing_http_error_tolerated plainURL world_listing_unavailable
              "/repo" (VNum 7) example_info "glpat" [] (VNum 7)
              example_pipeline eq_refl eq_refl Hp) as [Htolerated _].
  destruct (Htolerated [] (VArr []) eq_refl eq_refl eq_refl)
    as (envelope & Hrun & Hsuccess & _ & Hjobs & _).
  exists envelope. repeat split; [exact Hrun | exact Hsuccess |].
  apply Hjobs. reflexivity.
Defined.

Section LatestPipeline.

Variable w : World.
Variables (gitlabInfo : GitLabInfo) (gitlabToken : string).
Variable pipelineId : value.

(** Resolving the pipeline issues the list request or nothing. *)
Lemma resolve_pipeline_id_log (log log' : Log)
    (r : Exn + (Envelope + value)) :
  resolve_pipeline_id w gitlabInfo gitlabToken pipelineId log = (log', r) ->
  log' = log
  \/ log' = EFetch (latest_pipeline_request gitlabInfo gitlabToken) :: log.
Proof.
  intros H.
  assert (Hwp : wp (resolve_pipeline_id w gitlabInfo gitlabToken pipelineId)
                  (fun l _ =>
                     l = log
                     \/ l = EFetch (latest_pipeline_request gitlabInfo
                                      gitlabToken) :: log) log).
  { unfold resolve_pipeline_id. repeat wp_step; auto. }
  unfold wp in Hwp. now rewrite H in Hwp.
Qed.

Hypothesis omitted : truthy pipelineId = false.

Lemma resolve_pipeline_id_empty (r : Response) :
  fetch_reply w 0 (latest_pipeline_request gitlabInfo gitlabToken)
  = Fulfilled r ->
  ok r = true ->
  json_body r = inr (VArr []) ->
  resolve_pipeline_id w gitlabInfo gitlabToken pipelineId []
  = ([EFetch (latest_pipeline_request gitlabInfo gitlabToken)],
     inr (inl (mkEnvelope true msg_no_pipelines VNull))).
Proof.
  intros Hr Hok Hjson. apply wp_run. unfold resolve_pipeline_id.
  repeat wp_follow. reflexivity.
Qed.

Lemma resolve_pipeline_id_failed :
  call_failed
    (fetch_reply w 0 (latest_pipeline_request gitlabInfo gitlabToken))
  = true ->
  exists msg,
    resolve_pipeline_id w gitlabInfo gitlabToken pipelineId []
    = ([EFetch (latest_pipeline_request gitlabInfo gitlabToken)], inl msg).
Proof.
  intros Hfail.
  assert (Hwp : wp (resolve_pipeline_id w gitlabInfo gitlabToken pipelineId)
                  (fun l r =>
                     exists msg,
                       (l, r)
                       = ([EFetch (latest_pipeline_request gitlabInfo
                                     gitlabToken)], inl msg)) []).
  { unfold resolve_pipeline_id. unfold call_failed in Hfail.
    repeat wp_follow; try discriminate Hfail; eauto.
    all: match goal with
         | H : fetch_reply _ _ _ = Fulfilled _ |- _ =>
             rewrite H in Hfail; simpl in Hfail; congruence
         end. }
  unfold wp in Hwp. now rewrite <- surjective_pairing in Hwp.
Qed.

End LatestPipeline.

(** C6.  Called without a pipeline id, [getPipelineDetails] and
    [downloadPipelineArtifacts] return success with a null payload when
    the backend's pipeline list is OK and empty, after that one request;
    when the list call fails (rejected or non-OK status) they return a
    failure envelope. *)
Theorem empty_pipeline_list_is_success
    (URL : string -> option URLObject) (w : World)
    (projectPath : string) (pipelineId downloadPath : value)
    (gitlabInfo : GitLabInfo) (gitlabToken : string) :
  resolve_project URL w projectPath = inr (gitlabInfo, gitlabToken) ->
  truthy (default_null pipelineId) = false ->
  let latest := latest_pipeline_request gitlabInfo gitlabToken in
  let details := getPipelineDetails URL w projectPath pipelineId [] in
  let download :=
    downloadPipelineArtifacts URL w projectPath pipelineId downloadPath [] in
  (forall r,
     fetch_reply w 0 latest = Fulfilled r ->
     ok r = true ->
     json_body r = inr (VArr []) ->
     details
     = ([EFetch latest], inr (mkEnvelope true msg_no_pipelines VNull))
     /\ download
        = ([EFetch latest], inr (mkEnvelope true msg_no_pipelines VNull)))
  /\ (call_failed (fetch_reply w 0 latest) = true ->
      exists msg,
        details = ([EFetch latest], inr (mkEnvelope false msg VNull))
        /\ download = ([EFetch latest], inr (mkEnvelope false msg VNull))).
Proof.
  intros Hproject Homitted latest details download.
  subst details download. split.
  - intros r Hr Hok Hjson.
    pose proof (resolve_pipeline_id_empty w gitlabInfo gitlabToken
                  (default_null pipelineId) Homitted r Hr Hok Hjson) as Hid.
    split; apply wp_run;
      unfold getPipelineDetails, getPipelineDetails_body,
        downloadPipelineArtifacts, downloadPipelineArtifacts_body;
      repeat wp_follow; reflexivity.
  - intros Hfail.
    destruct (resolve_pipeline_id_failed w gitlabInfo gitlabToken
                (default_null pipelineId) Homitted Hfail) as [msg Hid].
    exists msg.
    split; apply wp_run;
      unfold getPipelineDetails, getPipelineDetails_body,
        downloadPipelineArtifacts, downloadPipelineArtifacts_body;
      repeat wp_follow; reflexivity.
Qed.

(** C6 at a project without pipelines. *)
Lemma empty_pipeline_list_is_success_witness :
  resolve_project plainURL world_no_pipelines "/repo"
  = inr (example_info, "glpat")
  /\ truthy (default_null VUndefined) = false
  /\ getPipelineDetails plainURL world_no_pipelines "/repo" VUndefined []
     = ([EFetch (latest_pipeline_request example_info "glpat")],
        inr (mkEnvelope true msg_no_pipelines VNull))
  /\ downloadPipelineArtifacts plainURL world_no_pipelines "/repo"
       VUndefined VUndefined []
     = ([EFetch (latest_pipeline_request example_info "glpat")],
        inr (mkEnvelope true msg_no_pipelines VNull)).
Proof.
  split; [reflexivity | split; [reflexivity |]].
  destruct (empty_pipeline_list_is_success plainURL world_no_pipelines
              "/repo" VUndefined VUndefined example_info "glpat"
              eq_refl eq_refl) as [Hempty _].
  exact (Hempty _ eq_refl eq_refl eq_refl).
Defined.

(** C10.  When the backend answers the pipeline's job-listing request
    with a non-OK status, [downloadPipelineArtifacts] returns a failure
    envelope and its effects end with that request (no archive request,
    no directory, no file), while [getPipelineDetails], given the
    pipeline and an answered artifact listing, succeeds with an empty
    job list. *)
Theorem job_listing_failure_contrast
    (URL : string -> option URLObject) (w : World)
    (projectPath : string) (pipelineId downloadPath : value)
    (gitlabInfo : GitLabInfo) (gitlabToken : string)
    (log0 : Log) (targetPipelineId pipeline artifacts : value)
    (jobsResponse : Response) :
  resolve_project URL w projectPath = inr (gitlabInfo, gitlabToken) ->
  resolve_pipeline_id w gitlabInfo gitlabToken (default_null pipelineId) []
  = (log0, inr (inr targetPipelineId)) ->
  let jobs_request :=
    pipeline_jobs_request gitlabInfo gitlabToken targetPipelineId in
  (forall n, fetch_reply w n jobs_request = Fulfilled jobsResponse) ->
  ok jobsResponse = false ->
  pipeline_fetched w gitlabInfo gitlabToken (fetch_count log0)
    targetPipelineId pipeline ->
  listing_answer
    (fetch_reply w (S (S (fetch_count log0)))
       (pipeline_artifacts_request gitlabInfo gitlabToken targetPipelineId))
  = Some artifacts ->
  (exists msg,
     downloadPipelineArtifacts URL w projectPath pipelineId downloadPath []
     = (EFetch jobs_request :: log0, inr (mkEnvelope false msg VNull))
     /\ (log0 = []
         \/ log0 = [EFetch (latest_pipeline_request gitlabInfo gitlabToken)]))
  /\ (exists envelope,
        snd (getPipelineDetails URL w projectPath pipelineId [])
        = inr envelope
        /\ success envelope = true
        /\ field (data envelope) "jobs" = VArr []).
Proof.
  intros Hproject Hid jobs_request Hjobs Hok Hpipeline Hartifacts. split.
  - assert (Hwp : wp (downloadPipelineArtifacts URL w projectPath pipelineId
                        downloadPath)
                    (fun l r => exists msg,
                       (l, r) = (EFetch jobs_request :: log0,
                                 inr (mkEnvelope false msg VNull))) []).
    { unfold downloadPipelineArtifacts, downloadPipelineArtifacts_body.
      pose proof (Hjobs (fetch_count log0)) as Hreply.
      unfold jobs_request in *.
      repeat wp_follow; eauto. }
    unfold wp in Hwp. rewrite <- surjective_pairing in Hwp.
    destruct Hwp as [msg Hrun]. exists msg. split; [exact Hrun |].
    destruct (resolve_pipeline_id_log w gitlabInfo gitlabToken
                (default_null pipelineId) [] log0 _ Hid); auto.
  - assert (Hlisting :
              listing_answer (fetch_reply w (S (fetch_count log0)) jobs_request)
              = Some (VArr [])).
    { rewrite Hjobs. simpl. now rewrite Hok. }
    rewrite (getPipelineDetails_run URL w projectPath pipelineId gitlabInfo
               gitlabToken log0 targetPipelineId Hproject Hid pipeline
               artifacts [] Hpipeline Hlisting eq_refl Hartifacts).
    eexists. repeat split.
Qed.

(** C10 at a backend whose job listing answers HTTP 500. *)
Lemma job_listing_failure_contrast_witness :
  resolve_project plainURL world_jobs_unavailable "/repo"
  = inr (example_info, "glpat")
  /\ (forall n,
        fetch_reply world_jobs_unavailable n
          (pipeline_jobs_request example_info "glpat" (VNum 7))
        = reply_status 500)
  /\ (exists msg,
        downloadPipelineArtifacts plainURL world_jobs_unavailable "/repo"
          (VNum 7) VUndefined []
        = ([EFetch (pipeline_jobs_request example_info "glpat" (VNum 7))],
           inr (mkEnvelope false msg VNull))
        /\ (@nil Event = []
            \/ @nil Event
               = [EFetch (latest_pipeline_request example_info "glpat")]))
  /\ (exists envelope,
        snd (getPipelineDetails plainURL world_jobs_unavailable "/repo"
               (VNum 7) []) = inr envelope
        /\ success envelope = true
        /\ field (data envelope) "jobs" = VArr []).
Proof.
  split; [reflexivity | split; [intros n; reflexivity |]].
  refine (job_listing_failure_contrast plainURL world_jobs_unavailable "/repo"
            (VNum 7) VUndefined example_info "glpat" [] (VNum 7)
            example_pipeline (VArr []) _ eq_refl eq_refl
            (fun n => eq_refl) eq_refl _ eq_refl).
  eexists. repeat split.
Defined.

(* ===================================================================== *)
(** * Artifact download                                                   *)
(* ===================================================================== *)

Section DownloadLoop.

Variable w : World.
Variable gitlabInfo : GitLabInfo.
Variable gitlabToken : string.
Variable dir : string.

Lemma get_prop_name (job : value) :
  is_nullish job = false -> get_prop job "name" = inr (job_name job).
Proof.
  intros H. unfold job_name, field.
  destruct (get_prop_not_nullish job "name" H) as [x ->]. reflexivity.
Qed.

(** One iteration pushes exactly one outcome and never throws. *)
Lemma download_job_run (acc : DownloadState) (job : value) (log : Log) :
  is_nullish job = false ->
  download_job w gitlabInfo gitlabToken dir acc job log
  = ((download_events w gitlabInfo gitlabToken dir (fetch_count log) job
      ++ log)%list,
     inr ((fst acc
           ++ download_file w gitlabInfo gitlabToken dir (fetch_count log)
                job)%list,
          (snd acc
           ++ [download_outcome w gitlabInfo gitlabToken dir
                 (fetch_count log) job])%list)).
Proof.
  intros Hjob. apply wp_run. unfold download_job.
  pose proof (get_prop_id job Hjob) as Hid.
  pose proof (get_prop_name job Hjob) as Hname.
  unfold download_events, download_file, download_outcome, attempt,
    archive_reply.
  repeat first [ apply wp_writeFileSync_exact | wp_follow ];
    rewrite ?app_nil_r; reflexivity.
Qed.

Lemma fetch_count_download (n : nat) (job : value) (log : Log) :
  fetch_count
    (download_events w gitlabInfo gitlabToken dir n job ++ log)%list
  = S (fetch_count log).
Proof.
  unfold download_events.
  destruct (attempt w gitlabInfo gitlabToken dir n job)
    as [? ? ?|? [[? ?]|]]; reflexivity.
Qed.

Lemma for_of_downloads (jobs : list value) (acc : DownloadState)
    (log : Log) :
  forallb (fun job => negb (is_nullish job)) jobs = true ->
  for_of jobs (download_job w gitlabInfo gitlabToken dir) acc log
  = ((loop_events w gitlabInfo gitlabToken dir (fetch_count log) jobs
      ++ log)%list,
     inr ((fst acc
           ++ download_files w gitlabInfo gitlabToken dir (fetch_count log)
                jobs)%list,
          (snd acc
           ++ download_outcomes w gitlabInfo gitlabToken dir
                (fetch_count log) jobs)%list)).
Proof.
  revert acc log. induction jobs as [|job rest IH]; intros acc log Hjobs.
  - simpl. now rewrite !app_nil_r, <- surjective_pairing.
  - simpl in Hjobs. apply andb_true_iff in Hjobs as [Hjob Hrest].
    apply negb_true_iff in Hjob.
    cbn [for_of]. unfold bind at 1.
    rewrite (download_job_run acc job log Hjob).
    rewrite (IH _ _ Hrest), fetch_count_download.
    cbn [fst snd loop_events download_files download_outcomes].
    rewrite <- !app_assoc. reflexivity.
Qed.

End DownloadLoop.

Section ListFacts.

Context {A : Type}.
Variable good : A -> bool.

Lemma filter_all_good (l : list A) :
  (forall i x, nth_error l i = Some x -> good x = true) ->
  filter (fun x => negb (good x)) l = [].
Proof.
  induction l as [|a l IH]; intros H; [reflexivity |].
  simpl. rewrite (H 0 a eq_refl). simpl.
  apply IH. intros i x Hi. exact (H (S i) x Hi).
Qed.

(** A list with one bad element, at position [K]. *)
Lemma single_bad (l : list A) (K : nat) :
  K < List.length l ->
  (forall i x, nth_error l i = Some x -> good x = negb (Nat.eqb i K)) ->
  List.length (filter (fun x => negb (good x)) l) = 1.
Proof.
  revert K. induction l as [|a l IH]; intros K HK H; [simpl in HK; lia |].
  simpl. destruct K as [|K].
  - rewrite (H 0 a eq_refl). simpl.
    rewrite filter_all_good; [reflexivity |].
    intros i x Hi. now rewrite (H (S i) x Hi).
  - rewrite (H 0 a eq_refl). simpl.
    apply (IH K); [simpl in HK; lia |].
    intros i x Hi. now rewrite (H (S i) x Hi).
Qed.

End ListFacts.

Section RequestFacts.

Lemma requests_app (l1 l2 : Log) :
  requests (l1 ++ l2)%list = (requests l2 ++ requests l1)%list.
Proof. unfold requests. now rewrite flat_map_app, rev_app_distr. Qed.

Lemma requests_fetch (req : Request) (log : Log) :
  requests (EFetch req :: log) = (requests log ++ [req])%list.
Proof. reflexivity. Qed.

Lemma requests_mkdir (path : string) (log : Log) :
  requests (EMkdir path :: log) = requests log.
Proof. unfold requests. simpl. reflexivity. Qed.

End RequestFacts.

Section DownloadFacts.

Variable w : World.
Variable gitlabInfo : GitLabInfo.
Variable gitlabToken : string.
Variable dir : string.

Lemma outcome_jobId (n : nat) (job : value) :
  field (download_outcome w gitlabInfo gitlabToken dir n job) "jobId" = job_id job.
Proof.
  unfold download_outcome.
  destruct (attempt w gitlabInfo gitlabToken dir n job); reflexivity.
Qed.

Lemma outcome_success (n : nat) (job : value) :
  field (download_outcome w gitlabInfo gitlabToken dir n job) "success" = VBool (download_succeeds w gitlabInfo gitlabToken dir n job)
  /\ outcome_succeeded (download_outcome w gitlabInfo gitlabToken dir n job) = download_succeeds w gitlabInfo gitlabToken dir n job.
Proof.
  unfold download_outcome, download_succeeds.
  destruct (attempt w gitlabInfo gitlabToken dir n job); split; reflexivity.
Qed.

Lemma outcome_error (n : nat) (job : value) :
  download_succeeds w gitlabInfo gitlabToken dir n job = false ->
  exists msg, field (download_outcome w gitlabInfo gitlabToken dir n job) "error" = VStr msg.
Proof.
  unfold download_outcome, download_succeeds.
  destruct (attempt w gitlabInfo gitlabToken dir n job) as [? ? ?|e ?];
    [discriminate |].
  intros _. exists e. reflexivity.
Qed.

(** A rejected or non-OK archive request is a failed download. *)
Lemma failed_call_fails (n : nat) (job : value) :
  call_failed (archive_reply w gitlabInfo gitlabToken n job) = true ->
  download_succeeds w gitlabInfo gitlabToken dir n job = false.
Proof.
  unfold download_succeeds, attempt.
  destruct (archive_reply w gitlabInfo gitlabToken n job) as [e|r];
    [reflexivity |].
  simpl. intros H. apply negb_true_iff in H. now rewrite H.
Qed.

Lemma outcomes_length (jobs : list value) (n : nat) :
  List.length (download_outcomes w gitlabInfo gitlabToken dir n jobs) = List.length jobs.
Proof. revert n. induction jobs; intros n; simpl; auto. Qed.

Lemma outcomes_nth (jobs : list value) (n i : nat) (r : value) :
  nth_error (download_outcomes w gitlabInfo gitlabToken dir n jobs) i = Some r ->
  exists job, nth_error jobs i = Some job /\ r = download_outcome w gitlabInfo gitlabToken dir (n + i) job.
Proof.
  revert n i. induction jobs as [|j rest IH]; intros n i H.
  - destruct i; discriminate H.
  - destruct i as [|i]; simpl in H.
    + injection H as <-. exists j. now rewrite Nat.add_0_r.
    + destruct (IH (S n) i H) as (job & Hjob & ->).
      exists job. split; [exact Hjob |]. f_equal. lia.
Qed.

Lemma outcomes_jobIds (jobs : list value) (n : nat) :
  map (fun r => field r "jobId") (download_outcomes w gitlabInfo gitlabToken dir n jobs) = map job_id jobs.
Proof.
  revert n. induction jobs as [|j rest IH]; intros n; [reflexivity |].
  cbn [download_outcomes map]. now rewrite outcome_jobId, IH.
Qed.

Lemma requests_download (n : nat) (job : value) :
  requests (download_events w gitlabInfo gitlabToken dir n job)
  = [archive_request gitlabInfo gitlabToken (job_id job)].
Proof.
  unfold download_events.
  destruct (attempt w gitlabInfo gitlabToken dir n job)
    as [? ? ?|? [[? ?]|]]; reflexivity.
Qed.

Lemma requests_loop (jobs : list value) (n : nat) :
  requests (loop_events w gitlabInfo gitlabToken dir n jobs)
  = map (fun job => archive_request gitlabInfo gitlabToken (job_id job))
      jobs.
Proof.
  revert n. induction jobs as [|j rest IH]; intros n; [reflexivity |].
  cbn [loop_events map].
  now rewrite requests_app, requests_download, IH.
Qed.

Lemma kept_not_nullish (jobs kept : list value) :
  filter_throwing has_artifacts_file jobs = inr kept ->
  forallb (fun job => negb (is_nullish job)) kept = true.
Proof.
  revert kept. induction jobs as [|j rest IH]; intros kept H; simpl in H.
  - now injection H as <-.
  - destruct (has_artifacts_file j) as [e|keep] eqn:Hj; [discriminate |].
    destruct (filter_throwing has_artifacts_file rest) as [e|kept'];
      [discriminate |].
    injection H as <-. specialize (IH kept' eq_refl).
    destruct keep; [| exact IH].
    simpl. rewrite IH, andb_true_r.
    destruct j; try reflexivity; discriminate Hj.
Qed.

End DownloadFacts.

Section PrepareFacts.

Variable w : World.

Lemma prepare_download_dir_log (projectPath : string) (downloadPath : value)
    (subdir : string) (log log' : Log) (r : Exn + string) :
  prepare_download_dir w projectPath downloadPath subdir log = (log', r) ->
  fetch_count log' = fetch_count log /\ requests log' = requests log.
Proof.
  intros H.
  assert (Hwp : wp (prepare_download_dir w projectPath downloadPath subdir)
                  (fun l _ => fetch_count l = fetch_count log
                              /\ requests l = requests log) log).
  { unfold prepare_download_dir. repeat wp_step; auto. }
  unfold wp in Hwp. now rewrite H in Hwp.
Qed.

End PrepareFacts.

Section PipelineDownload.

Variable URL : string -> option URLObject.
Variable w : World.
Variables (projectPath : string) (pipelineId downloadPath : value).
Variables (gitlabInfo : GitLabInfo) (gitlabToken : string).
Variables (log0 log1 : Log) (targetPipelineId : value).
Variables (jobsResponse : Response) (jobs jobsWithArtifacts : list value).
Variable dir : string.

Hypothesis resolved :
  resolve_project URL w projectPath = inr (gitlabInfo, gitlabToken).
Hypothesis targeted :
  resolve_pipeline_id w gitlabInfo gitlabToken (default_null pipelineId) []
  = (log0, inr (inr targetPipelineId)).
Hypothesis listed :
  fetch_reply w (fetch_count log0)
    (pipeline_jobs_request gitlabInfo gitlabToken targetPipelineId)
  = Fulfilled jobsResponse.
Hypothesis listed_ok : ok jobsResponse = true.
Hypothesis listed_jobs : json_body jobsResponse = inr (VArr jobs).
Hypothesis kept :
  filter_throwing has_artifacts_file jobs = inr jobsWithArtifacts.
Hypothesis some_kept : jobsWithArtifacts <> [].
Hypothesis prepared :
  prepare_download_dir w projectPath (default_null downloadPath)
    ("pipeline_" ++ to_js_string targetPipelineId)
    (EFetch (pipeline_jobs_request gitlabInfo gitlabToken targetPipelineId)
     :: log0)
  = (log1, inr dir).

(** The run of [downloadPipelineArtifacts] once the loop is reached. *)
Lemma downloadPipelineArtifacts_run :
  let n := S (fetch_count log0) in
  let results :=
    download_outcomes w gitlabInfo gitlabToken dir n jobsWithArtifacts in
  downloadPipelineArtifacts URL w projectPath pipelineId downloadPath []
  = ((loop_events w gitlabInfo gitlabToken dir n jobsWithArtifacts
      ++ log1)%list,
     inr (mkEnvelope true (msg_downloaded results)
            (download_payload targetPipelineId (VArr jobs)
               jobsWithArtifacts
               (download_files w gitlabInfo gitlabToken dir n
                  jobsWithArtifacts)
               dir results))).
Proof.
  intros n results. subst n results.
  destruct (prepare_download_dir_log w _ _ _ _ _ _ prepared)
    as [Hcount _].
  rewrite fetch_count_fetch in Hcount.
  pose proof (for_of_downloads w gitlabInfo gitlabToken dir
                jobsWithArtifacts ([], []) log1
                (kept_not_nullish jobs jobsWithArtifacts kept)) as Hloop.
  rewrite Hcount in Hloop. cbn [fst snd app] in Hloop.
  destruct jobsWithArtifacts as [|job rest]; [now elim some_kept |].
  apply wp_run.
  unfold downloadPipelineArtifacts, downloadPipelineArtifacts_body.
  repeat wp_follow. reflexivity.
Qed.

End PipelineDownload.

(** C5.  Once the download loop is reached with [N] jobs carrying
    artifact-file metadata: if the download of job [K] fails (its
    request is rejected or answered with a non-OK status, or reading or
    writing the archive throws) and every other download succeeds, the
    outcome list has length [N], in job-listing order, the entry of [K]
    is the only one with [success: false] and carries an error
    description, and the archive of every job, also those after [K], was
    requested, in order. *)
Theorem one_failed_download_is_isolated
    (URL : string -> option URLObject) (w : World)
    (projectPath : string) (pipelineId downloadPath : value)
    (gitlabInfo : GitLabInfo) (gitlabToken : string)
    (log0 log1 : Log) (targetPipelineId : value)
    (jobsResponse : Response) (jobs jobsWithArtifacts : list value)
    (dir : string) (K : nat) :
  resolve_project URL w projectPath = inr (gitlabInfo, gitlabToken) ->
  resolve_pipeline_id w gitlabInfo gitlabToken (default_null pipelineId) []
  = (log0, inr (inr targetPipelineId)) ->
  let jobs_request :=
    pipeline_jobs_request gitlabInfo gitlabToken targetPipelineId in
  fetch_reply w (fetch_count log0) jobs_request = Fulfilled jobsResponse ->
  ok jobsResponse = true ->
  json_body jobsResponse = inr (VArr jobs) ->
  filter_throwing has_artifacts_file jobs = inr jobsWithArtifacts ->
  prepare_download_dir w projectPath (default_null downloadPath)
    ("pipeline_" ++ to_js_string targetPipelineId)
    (EFetch jobs_request :: log0)
  = (log1, inr dir) ->
  K < List.length jobsWithArtifacts ->
  let n := S (fetch_count log0) in
  (forall i job,
     nth_error jobsWithArtifacts i = Some job ->
     download_succeeds w gitlabInfo gitlabToken dir (n + i) job
     = negb (Nat.eqb i K)) ->
  exists envelope results,
    snd (downloadPipelineArtifacts URL w projectPath pipelineId
           downloadPath []) = inr envelope
    /\ success envelope = true
    /\ field (data envelope) "downloadResults" = VArr results
    /\ List.length results = List.length jobsWithArtifacts
    /\ map (fun r => field r "jobId") results = map job_id jobsWithArtifacts
    /\ (forall i r,
          nth_error results i = Some r ->
          field r "success" = VBool (negb (Nat.eqb i K)))
    /\ (exists failed msg,
          nth_error results K = Some failed
          /\ field failed "error" = VStr msg)
    /\ List.length (filter (fun r => negb (outcome_succeeded r)) results) = 1
    /\ requests
         (fst (downloadPipelineArtifacts URL w projectPath pipelineId
                 downloadPath []))
       = (requests log0
          ++ jobs_request
          :: map (fun job => archive_request gitlabInfo gitlabToken
                               (job_id job)) jobsWithArtifacts)%list.
Proof.
  intros Hproject Hid jobs_request Hlist Hok Hjson Hkept Hdir HK n Honly.
  assert (Hsome : jobsWithArtifacts <> []).
  { intros ->. simpl in HK. lia. }
  rewrite (downloadPipelineArtifacts_run URL w projectPath pipelineId
             downloadPath gitlabInfo gitlabToken log0 log1 targetPipelineId
             jobsResponse jobs jobsWithArtifacts dir Hproject Hid Hlist Hok
             Hjson Hkept Hsome Hdir).
  cbv zeta. fold n.
  set (results := download_outcomes w gitlabInfo gitlabToken dir n
                    jobsWithArtifacts).
  assert (Hflag : forall i r,
             nth_error results i = Some r ->
             exists job,
               nth_error jobsWithArtifacts i = Some job
               /\ r = download_outcome w gitlabInfo gitlabToken dir (n + i) job
               /\ download_succeeds w gitlabInfo gitlabToken dir (n + i) job
                  = negb (Nat.eqb i K)).
  { intros i r Hr.
    destruct (outcomes_nth w gitlabInfo gitlabToken dir _ _ _ _ Hr)
      as (job & Hjob & ->).
    exists job. split; [exact Hjob | split; [reflexivity |]].
    apply Honly, Hjob. }
  exists (mkEnvelope true (msg_downloaded results)
            (download_payload targetPipelineId (VArr jobs) jobsWithArtifacts
               (download_files w gitlabInfo gitlabToken dir n
                  jobsWithArtifacts) dir results)), results.
  split; [reflexivity |]. split; [reflexivity |]. split; [reflexivity |].
  split; [apply outcomes_length |]. split; [apply outcomes_jobIds |].
  split; [| split; [| split]].
  - intros i r Hr. destruct (Hflag i r Hr) as (job & _ & -> & Hs).
    rewrite <- Hs. apply outcome_success.
  - destruct (nth_error results K) as [failed|] eqn:HKth.
    + destruct (Hflag K failed HKth) as (job & _ & -> & Hs).
      rewrite Nat.eqb_refl in Hs.
      destruct (outcome_error w gitlabInfo gitlabToken dir _ _ Hs) as [msg Hmsg].
      eauto.
    + apply nth_error_None in HKth. unfold results in HKth.
      rewrite outcomes_length in HKth. lia.
  - apply (single_bad outcome_succeeded results K).
    + unfold results. now rewrite outcomes_length.
    + intros i r Hr. destruct (Hflag i r Hr) as (job & _ & -> & Hs).
      rewrite <- Hs. apply outcome_success.
  - cbn [fst]. rewrite requests_app, requests_loop.
    destruct (prepare_download_dir_log w _ _ _ _ _ _ Hdir) as [_ Hreq].
    rewrite Hreq, requests_fetch, <- app_assoc. reflexivity.
Qed.

(** C5 at three jobs with artifacts, the second download answered with
    HTTP 404. *)
Lemma one_failed_download_is_isolated_witness :
  resolve_project plainURL world_one_download_fails "/repo"
  = inr (example_info, "glpat")
  /\ filter_throwing has_artifacts_file
       (example_jobs ++ [example_job_without_artifacts])%list
     = inr example_jobs
  /\ call_failed
       (archive_reply world_one_download_fails example_info "glpat" 2
          (example_job 12 "unit tests")) = true
  /\ exists envelope results,
       snd (downloadPipelineArtifacts plainURL world_one_download_fails
              "/repo" (VNum 7) VUndefined []) = inr envelope
       /\ success envelope = true
       /\ field (data envelope) "downloadResults" = VArr results
       /\ List.length results = 3
       /\ map (fun r => field r "jobId") results = map job_id example_jobs
       /\ (forall i r,
             nth_error results i = Some r ->
             field r "success" = VBool (negb (Nat.eqb i 1)))
       /\ (exists failed msg,
             nth_error results 1 = Some failed
             /\ field failed "error" = VStr msg)
       /\ List.length
            (filter (fun r => negb (outcome_succeeded r)) results) = 1
       /\ requests
            (fst (downloadPipelineArtifacts plainURL world_one_download_fails
                    "/repo" (VNum 7) VUndefined []))
          = (requests []
             ++ pipeline_jobs_request example_info "glpat" (VNum 7)
             :: map (fun job => archive_request example_info "glpat"
                                  (job_id job)) example_jobs)%list.
Proof.
  split; [reflexivity | split; [reflexivity | split; [reflexivity |]]].
  refine (one_failed_download_is_isolated plainURL world_one_download_fails
            "/repo" (VNum 7) VUndefined example_info "glpat" []
            [EMkdir "/repo/artifacts/pipeline_7";
             EFetch (pipeline_jobs_request example_info "glpat" (VNum 7))]
            (VNum 7) _ _ example_jobs "/repo/artifacts/pipeline_7" 1
            eq_refl eq_refl eq_refl eq_refl eq_refl eq_refl eq_refl _ _).
  - simpl. lia.
  - intros [|[|[|i]]] job Hjob;
      try (injection Hjob as <-; reflexivity).
    destruct i; discriminate Hjob.
Defined.
